(** * Agent: module registry and request dispatch (lib/src/agent.cc)

    A shallow embedding of [CthunAgent::Agent]: the constructor with its
    module loading, [start], and the request callback
    [cncRequestCallback].  C++ exceptions are explicit results, and the calls
    that leave the agent (logging, the connector, the handlers, the external
    module constructor) are recorded in a trace of events. *)

From Stdlib Require Import ZArith Ascii String.
From stdpp Require Import base strings list gmap sorting.

Local Open Scope Z_scope.
Local Open Scope string_scope.
Local Set Warnings "-register-all,-clear-no-such-hyp".

(** ** Exceptions *)

(** The classes named in agent.cc.  [std_exception] stands for any other
    class derived from [std::exception], [non_std] for a thrown object that
    only [catch (...)] matches. *)
Inductive exn_class :=
| std_exception
| non_std
| fatal_error
| module_error
| request_error
| request_validation_error
| connection_error
| connection_config_error
| connection_fatal_error.

Global Instance exn_class_eq_dec : EqDecision exn_class.
Proof. solve_decision. Defined.

(** Modelled from the spec: the class hierarchy of errors.hpp and of
    cthun-client's connector/errors.hpp, which agent.cc includes but which
    are not part of the sources at hand.  A request validation error is a
    request error (the spec's taxonomy converts both into an error response);
    configuration and fatal connection errors are connection errors. *)
Definition base_class (c : exn_class) : option exn_class :=
  match c with
  | std_exception | non_std => None
  | fatal_error | module_error | request_error | connection_error =>
      Some std_exception
  | request_validation_error => Some request_error
  | connection_config_error | connection_fatal_error => Some connection_error
  end.

Fixpoint is_a_upto (fuel : nat) (c d : exn_class) : bool :=
  bool_decide (c = d) ||
  match fuel with
  | O => false
  | S fuel' =>
      match base_class c with
      | Some b => is_a_upto fuel' b d
      | None => false
      end
  end.

(** The hierarchy is three levels deep. *)
Definition is_a (c d : exn_class) : bool := is_a_upto 3 c d.

Record exn := Exn { class_of : exn_class; what : string }.

Inductive result (A : Type) :=
| Ok (a : A)
| Raise (e : exn).
Arguments Ok {A} a.
Arguments Raise {A} e.

(** ** cthun-client data: containers, parsed chunks, schemas *)

Inductive json :=
| JNull
| JBool (b : bool)
| JInt (n : Z)
| JString (s : string)
| JArray (items : list json)
| JObject (members : list (string * json)).

(** A [DataContainer] is a JSON document whose root is an object; it is
    given by the members of that object, in order. *)
Definition DataContainer := list (string * json).

Fixpoint find_member (key : string) (d : DataContainer) : option json :=
  match d with
  | [] => None
  | (k, v) :: d' => if decide (k = key) then Some v else find_member key d'
  end.

(** [set<std::string>(key, value)]: replaces the member or appends it. *)
Fixpoint set_member (key : string) (v : json) (d : DataContainer)
  : DataContainer :=
  match d with
  | [] => [(key, v)]
  | (k, v') :: d' =>
      if decide (k = key) then (k, v) :: d' else (k, v') :: set_member key v d'
  end.

Definition set_string (d : DataContainer) (key value : string)
  : DataContainer :=
  set_member key (JString value) d.

Inductive ContentType := Json | Binary.

Global Instance ContentType_eq_dec : EqDecision ContentType.
Proof. solve_decision. Defined.

Record ParsedChunks := {
  envelope : DataContainer;
  has_data : bool;
  data_type : ContentType;
  data : DataContainer;
  debug : list string
}.

(** [CthunClient::TypeConstraint], named [T_C] in agent.cc. *)
Inductive TypeConstraint :=
| T_C_Object | T_C_Array | T_C_String | T_C_Int | T_C_Bool | T_C_Null
| T_C_Any.

Record Schema := {
  schema_name : string;
  schema_content_type : ContentType;
  constraints : list (string * TypeConstraint * bool)
}.

Definition Schema_new (name : string) (ct : ContentType) : Schema :=
  {| schema_name := name; schema_content_type := ct; constraints := [] |}.

Definition addConstraint (s : Schema) (field : string) (t : TypeConstraint)
    (required : bool) : Schema :=
  {| schema_name := schema_name s;
     schema_content_type := schema_content_type s;
     constraints := (constraints s ++ [(field, t, required)])%list |}.

Definition has_type (t : TypeConstraint) (v : json) : bool :=
  match t, v with
  | T_C_Any, _ => true
  | T_C_Object, JObject _ => true
  | T_C_Array, JArray _ => true
  | T_C_String, JString _ => true
  | T_C_Int, JInt _ => true
  | T_C_Bool, JBool _ => true
  | T_C_Null, JNull => true
  | _, _ => false
  end.

(** Modelled from the spec: the validation the connector (cthun-client's
    Validator, not part of the sources at hand) applies to a data section
    before it calls the callback registered for a schema: a required field is
    present, and a field that is present has the declared type ("required
    string fields module, action, and an optional object field params"). *)
Definition conforms (s : Schema) (d : DataContainer) : bool :=
  forallb
    (λ c : string * TypeConstraint * bool,
       match find_member c.1.1 d with
       | Some v => has_type c.1.2 v
       | None => negb c.2
       end)
    (constraints s).

(** ** Modules *)

(** A [Module] object: its name, the names of its actions (the keys of
    [actions]) and its virtual [performRequest]. *)
Record Module := {
  module_name : string;
  actions : list string;
  performRequest : string → ParsedChunks → result DataContainer
}.

(** ** Traces and the monad of agent code *)

Inductive log_level := LOG_INFO | LOG_DEBUG | LOG_WARNING | LOG_ERROR.

Inductive log_arg :=
| arg_str (s : string)
| arg_chunks (pc : ParsedChunks).

Inductive event :=
| EvLog (lvl : log_level) (fmt : string) (args : list log_arg)
| EvFind (name : string)
| EvAt (name : string)
| EvPerformRequest (name action : string)
| EvSend (targets : list string) (schema : string) (timeout : Z)
    (data_json : DataContainer) (debug_entries : list DataContainer)
| EvNewExternalModule (path : string)
| EvRegisterMessageCallback (schema : Schema)
| EvConnect
| EvMonitorConnection.

(** A computation yields the events it caused and either a value or the
    exception that left it. *)
Definition M (A : Type) : Type := list event * result A.

Definition ret {A} (a : A) : M A := ([], Ok a).

Definition bind {A B} (m : M A) (k : A → M B) : M B :=
  match m with
  | (t, Ok a) => let '(t', r) := k a in ((t ++ t')%list, r)
  | (t, Raise e) => (t, Raise e)
  end.

Definition throw {A} (e : exn) : M A := ([], Raise e).
Definition emit (ev : event) : M unit := ([ev], Ok tt).
Definition lift {A} (r : result A) : M A := ([], r).

Declare Scope agent_scope.
Delimit Scope agent_scope with agent.
Notation "'do' x <- m ; k" := (bind m (λ x, k))
  (at level 10, x name, m at level 100, k at level 200) : agent_scope.
Notation "m ;;; k" := (bind m (λ _, k))
  (at level 100, k at level 200, right associativity) : agent_scope.
Local Open Scope agent_scope.

(** try / catch: the first clause that matches the exception handles it. *)
Inductive catch_spec :=
| catch_type (c : exn_class)
| catch_all.

Definition catches (h : catch_spec) (e : exn) : bool :=
  match h with
  | catch_type c => is_a (class_of e) c
  | catch_all => true
  end.

Fixpoint select_handler {A} (hs : list (catch_spec * (exn → M A))) (e : exn)
  : option (exn → M A) :=
  match hs with
  | [] => None
  | (h, k) :: hs' => if catches h e then Some k else select_handler hs' e
  end.

Definition try_catch {A} (body : M A) (hs : list (catch_spec * (exn → M A)))
  : M A :=
  match body with
  | (t, Raise e) =>
      match select_handler hs e with
      | Some k => let '(t', r) := k e in ((t ++ t')%list, r)
      | None => (t, Raise e)
      end
  | _ => body
  end.

Definition log (lvl : log_level) (fmt : string) (args : list log_arg)
  : M unit :=
  emit (EvLog lvl fmt args).

(** ** The connector *)

(** [CthunClient::Connector], seen from the agent: how [connect] ends, how
    each [send] ends, and what [monitorConnection] does with the registered
    callback while it blocks. *)
Record Connector := {
  connect : result unit;
  monitorConnection : (ParsedChunks → M unit) → M unit;
  send : list string → string → Z → DataContainer → list DataContainer →
         result unit
}.

(** ** boost::filesystem *)

Inductive file_type :=
| status_error | file_not_found | regular_file | directory_file
| symlink_file | block_file | character_file | fifo_file | socket_file
| type_unknown.

Global Instance file_type_eq_dec : EqDecision file_type.
Proof. solve_decision. Defined.

Definition is_directory (s : file_type) : bool :=
  match s with
  | directory_file => true
  | _ => false
  end.

(** An entry of a directory: its path and the status the iterator holds
    for it, [status_error] when that status cannot be read. *)
Record directory_entry := { path : string; status : file_type }.

(** ** What the agent's code is linked against *)

(** The parts of cthun-client, boost::filesystem and the agent's other
    translation units that agent.cc calls and whose code is not in agent.cc:
    they are taken as given. *)
Record World := {
  CTHUN_REQUEST_SCHEMA_NAME : string;
  CTHUN_RESPONSE_SCHEMA_NAME : string;
  (** what [get<std::string>] does for a key that is absent or holds no
      string *)
  get_string_otherwise : DataContainer → string → result string;
  fs_system_complete : string → string;
  fs_parent_path : string → string;
  fs_canonical : string → result string;
  (** the status of a path, [status_error] when it cannot be read *)
  fs_status : string → file_type;
  (** the entries a [directory_iterator] over the path visits, in order *)
  fs_directory : string → list directory_entry;
  (** whether the iteration over the path fails after these entries: the
      construction of the iterator or an increment raises *)
  fs_directory_fails : string → bool;
  (** the message of the [filesystem_error] raised for a path *)
  filesystem_error_what : string → string;
  Modules_Echo : Module;
  Modules_Inventory : Module;
  Modules_Ping : Module;
  Modules_Status : Module;
  (** the constructor [ExternalModule(path)] *)
  ExternalModule_new : string → result Module;
  (** the constructor of [connector_] *)
  Connector_new : string → string → string → string → string →
                  result Connector;
  StringUtils_plural : nat → string
}.

Record Agent := {
  connector_ : Connector;
  modules_ : gmap string Module
}.

Definition LF : string := String "010"%char EmptyString.

(** ** agent.cc *)

Definition AGENT_CLIENT_TYPE : string := "agent".
Definition SCHEMA_NAME_CNC : string := "cnc_schema".
Definition DEFAULT_MSG_TIMEOUT_SEC : Z := 10.

Section AgentCode.

Context (w : World).

Definition get_string (d : DataContainer) (key : string) : result string :=
  match find_member key d with
  | Some (JString s) => Ok s
  | _ => get_string_otherwise w d key
  end.

Definition getModulesDirPath (bin_path : string) : result string :=
  match
    fs_canonical w
      (fs_parent_path w (fs_parent_path w (fs_system_complete w bin_path)))
  with
  | Ok modules_dir_path => Ok (modules_dir_path +:+ "/modules")
  | Raise e => Raise e
  end.

(** The [filesystem_error] of boost::filesystem, a [std::exception]. *)
Definition filesystem_error (p : string) : exn :=
  Exn std_exception (filesystem_error_what w p).

(** [fs::is_directory(p)] and [fs::is_directory(f->status())] with the
    throwing overloads of [status]: a status that cannot be read raises a
    [filesystem_error]. *)
Definition fs_is_directory (p : string) (s : file_type) : M bool :=
  match s with
  | status_error => throw (filesystem_error p)
  | _ => ret (is_directory s)
  end.

Definition loadInternalModules (modules : gmap string Module)
  : gmap string Module :=
  let modules := <["echo" := Modules_Echo w]> modules in
  let modules := <["inventory" := Modules_Inventory w]> modules in
  let modules := <["ping" := Modules_Ping w]> modules in
  <["status" := Modules_Status w]> modules.

(** The body of the loop of [loadExternalModulesFrom] for the entry [f]:
    [f->status()] is read outside the [try] block. *)
Definition load_entry (f : directory_entry) (modules : gmap string Module)
  : M (gmap string Module) :=
  do is_dir <- fs_is_directory (path f) (status f);
  if negb is_dir then
    let f_p := path f in
    try_catch
      (emit (EvNewExternalModule f_p);;;
       do e_m <- lift (ExternalModule_new w f_p);
       ret (<[module_name e_m := e_m]> modules))
      [ (catch_type module_error,
         λ e, log LOG_ERROR "Failed to load %1%; %2%"
                [arg_str f_p; arg_str (what e)];;;
              ret modules);
        (catch_type std_exception,
         λ e, log LOG_ERROR "Unexpected error when loading %1%; %2%"
                [arg_str f_p; arg_str (what e)];;;
              ret modules);
        (catch_all,
         λ e, log LOG_ERROR "Unexpected error when loading %1%"
                [arg_str f_p];;;
              ret modules) ]
  else ret modules.

Fixpoint load_entries (fs : list directory_entry)
    (modules : gmap string Module) : M (gmap string Module) :=
  match fs with
  | [] => ret modules
  | f :: fs' => do modules' <- load_entry f modules; load_entries fs' modules'
  end.

(** The iteration ends after the entries the iterator visits, or raises a
    [filesystem_error] there; neither [fs::is_directory(dir_path)] nor the
    iterator is inside a [try] block. *)
Definition loadExternalModulesFrom (dir_path : string)
    (modules : gmap string Module) : M (gmap string Module) :=
  log LOG_INFO "Loading external modules from %1%" [arg_str dir_path];;;
  do is_dir <- fs_is_directory dir_path (fs_status w dir_path);
  if is_dir then
    do modules' <- load_entries (fs_directory w dir_path) modules;
    if fs_directory_fails w dir_path
    then throw (filesystem_error dir_path)
    else ret modules'
  else
    log LOG_WARNING
      ("Failed to locate the modules directory; external modules " +:+
       "will not be loaded") [];;;
    ret modules.

(** [txt] and [actions_list] after the inner loop of [logLoadedModules]. *)
Definition actions_text (acts : list string) : string * string :=
  fold_left
    (λ (st : string * string) (action : string),
       let st' :=
         if decide (st.2 = EmptyString) then ("action", st.2 +:+ ": ")
         else (st.1, st.2 +:+ ", ") in
       (st'.1, st'.2 +:+ action))
    acts ("found no action", EmptyString).

Definition key_le (x y : string * Module) : Prop :=
  Is_true (String.leb x.1 y.1).

Global Instance key_le_dec : RelDecision key_le.
Proof. intros x y. unfold key_le. apply _. Defined.

(** A [std::map] is visited in the order of its keys. *)
Definition in_key_order (modules : gmap string Module)
  : list (string * Module) :=
  merge_sort key_le (map_to_list modules).

Fixpoint log_modules (l : list (string * Module)) : M unit :=
  match l with
  | [] => ret tt
  | module :: l' =>
      let '(txt, actions_list) := actions_text (actions module.2) in
      let txt_suffix := StringUtils_plural w (List.length (actions module.2)) in
      log LOG_INFO "Loaded '%1%' module - %2%%3%%4%"
        [arg_str module.1; arg_str txt; arg_str txt_suffix;
         arg_str actions_list];;;
      log_modules l'
  end.

Definition logLoadedModules (modules : gmap string Module) : M unit :=
  log_modules (in_key_order modules).

Definition Agent_new (bin_path server_url ca crt key : string) : M Agent :=
  try_catch
    (do connector <-
       lift (Connector_new w server_url AGENT_CLIENT_TYPE ca crt key);
     let modules := loadInternalModules ∅ in
     do modules_dir_path <- lift (getModulesDirPath bin_path);
     do modules <- loadExternalModulesFrom modules_dir_path modules;
     logLoadedModules modules;;;
     ret {| connector_ := connector; modules_ := modules |})
    [ (catch_type connection_config_error,
       λ e, throw (Exn fatal_error
                     ("failed to configure the agent: " +:+ what e))) ].

Definition getCncRequestSchema : Schema :=
  let schema := Schema_new (CTHUN_REQUEST_SCHEMA_NAME w) Json in
  let schema := addConstraint schema "module" T_C_String true in
  let schema := addConstraint schema "action" T_C_String true in
  addConstraint schema "params" T_C_Object false.

(** [connector_.send(...)]: the attempt is recorded, then it ends as the
    connector decides. *)
Definition connector_send (a : Agent) (targets : list string)
    (schema : string) (timeout : Z) (data_json : DataContainer)
    (debug_entries : list DataContainer) : M unit :=
  emit (EvSend targets schema timeout data_json debug_entries);;;
  lift (send (connector_ a) targets schema timeout data_json debug_entries).

(** [modules_.at(name)], a second query of the registry. *)
Definition modules_at (a : Agent) (name : string) : M Module :=
  emit (EvAt name);;;
  match modules_ a !! name with
  | Some module_ptr => ret module_ptr
  | None => throw (Exn std_exception "map::at")
  end.

(** The statements of the outer [try] block of [cncRequestCallback] from
    the inspection of the envelope to the call of [performRequest]; its value
    is [data_json]. *)
Definition dispatch_request (a : Agent) (parsed_chunks : ParsedChunks)
  : M DataContainer :=
  (if negb (has_data parsed_chunks)
   then throw (Exn request_validation_error "no data")
   else ret tt);;;
  (if decide (data_type parsed_chunks ≠ Json)
   then throw (Exn request_validation_error "data is not in JSON format")
   else ret tt);;;
  do module_name <- lift (get_string (data parsed_chunks) "module");
  do action_name <- lift (get_string (data parsed_chunks) "action");
  emit (EvFind module_name);;;
  (match modules_ a !! module_name with
   | None =>
       throw (Exn request_validation_error
                ("unknown module: " +:+ module_name))
   | Some _ => ret tt
   end);;;
  do module_ptr <- modules_at a module_name;
  emit (EvPerformRequest module_name action_name);;;
  lift (performRequest module_ptr action_name parsed_chunks).

(** The debug data wrapped for the response. *)
Definition wrap_debug (parsed_chunks : ParsedChunks) : list DataContainer :=
  map (λ debug_txt, set_string [] "debug_data" debug_txt)
      (debug parsed_chunks).

Definition cncRequestCallback (a : Agent) (parsed_chunks : ParsedChunks)
  : M unit :=
  do request_id <- lift (get_string (envelope parsed_chunks) "id");
  do requester_endpoint <- lift (get_string (envelope parsed_chunks) "sender");
  log LOG_INFO "Received message %1% from %2%"
    [arg_str request_id; arg_str requester_endpoint];;;
  log LOG_DEBUG ("Message %1%:" +:+ LF +:+ "%2%")
    [arg_str request_id; arg_chunks parsed_chunks];;;
  try_catch
    (do data_json <- dispatch_request a parsed_chunks;
     let debug_entries := wrap_debug parsed_chunks in
     try_catch
       (connector_send a [requester_endpoint] (CTHUN_RESPONSE_SCHEMA_NAME w)
          DEFAULT_MSG_TIMEOUT_SEC data_json debug_entries)
       [ (catch_type connection_error,
          λ e, log LOG_ERROR
                 "Failed to reply to the %1% request from %2%: %3%"
                 [arg_str request_id; arg_str requester_endpoint;
                  arg_str (what e)]) ])
    [ (catch_type request_error,
       λ e,
         log LOG_ERROR "Failed to process message %1% from %2%: %3%"
           [arg_str request_id; arg_str requester_endpoint;
            arg_str (what e)];;;
         let error_data_json := set_string [] "error" (what e) in
         try_catch
           (connector_send a [requester_endpoint]
              (CTHUN_RESPONSE_SCHEMA_NAME w) DEFAULT_MSG_TIMEOUT_SEC
              error_data_json [])
           [ (catch_type connection_error,
              λ e, log LOG_ERROR
                     ("Failed send an error response to the %1% request " +:+
                      "from %2%: %3%")
                     [arg_str request_id; arg_str requester_endpoint;
                      arg_str (what e)]) ]) ].

Definition start (a : Agent) : M unit :=
  emit (EvRegisterMessageCallback getCncRequestSchema);;;
  try_catch
    (emit EvConnect;;; lift (connect (connector_ a)))
    [ (catch_type connection_config_error,
       λ e, log LOG_ERROR
              "Failed to configure the underlying communications layer: %1%"
              [arg_str (what e)];;;
            throw (Exn fatal_error
                     ("failed to configure the underlying communications" +:+
                      "layer")));
      (catch_type connection_fatal_error,
       λ e, log LOG_ERROR "Failed to connect: %1%" [arg_str (what e)];;;
            throw (Exn fatal_error "failed to connect")) ];;;
  try_catch
    (emit EvMonitorConnection;;;
     monitorConnection (connector_ a) (cncRequestCallback a))
    [ (catch_type connection_fatal_error,
       λ _, throw (Exn fatal_error "failed to reconnect")) ].

End AgentCode.

(** ** Observations on traces *)

(** The responses handed to the connector: recipients, payload and debug
    entries of each [send], in order. *)
Definition response_of (ev : event)
  : option (list string * DataContainer * list DataContainer) :=
  match ev with
  | EvSend targets _ _ data_json debug_entries =>
      Some (targets, data_json, debug_entries)
  | _ => None
  end.

Definition responses (tr : list event)
  : list (list string * DataContainer * list DataContainer) :=
  omap response_of tr.

Definition is_lookup (ev : event) : bool :=
  match ev with EvFind _ | EvAt _ => true | _ => false end.

Definition is_perform (ev : event) : bool :=
  match ev with EvPerformRequest _ _ => true | _ => false end.

Definition construction_of (ev : event) : option string :=
  match ev with EvNewExternalModule p => Some p | _ => None end.

(** The paths given to the constructor of [ExternalModule], in order. *)
Definition constructions (tr : list event) : list string :=
  omap construction_of tr.

(** The payload of an error response. *)
Definition error_payload (msg : string) : DataContainer :=
  [("error", JString msg)].

(** The connector's [send] fails with connection errors only. *)
Definition send_raises_connection_errors (c : Connector) : Prop :=
  ∀ targets schema timeout d dbg e,
    send c targets schema timeout d dbg = Raise e →
    is_a (class_of e) connection_error = true.

(** The two log lines that open the callback. *)
Definition preamble (id sender : string) (pc : ParsedChunks) : list event :=
  [ EvLog LOG_INFO "Received message %1% from %2%"
      [arg_str id; arg_str sender];
    EvLog LOG_DEBUG ("Message %1%:" +:+ LF +:+ "%2%")
      [arg_str id; arg_chunks pc] ].

(** The response the callback owes for the outcome [r] of the dispatch: the
    handler's payload with the wrapped debug data, or the error string
    alone. *)
Definition response_for (sender : string) (pc : ParsedChunks)
    (r : result DataContainer)
  : list string * DataContainer * list DataContainer :=
  match r with
  | Ok data_json => ([sender], data_json, wrap_debug pc)
  | Raise e => ([sender], error_payload (what e), [])
  end.

(** The outcome of the dispatch is a payload or a request error. *)
Definition request_level (r : result DataContainer) : Prop :=
  match r with
  | Ok _ => True
  | Raise e => is_a (class_of e) request_error = true
  end.

(** The callback returns, and it has handed the response [resp], and no
    other, to the connector; if that [send] raised, the trace ends with the
    error line that reports it. *)
Definition answered_once (w : World) (a : Agent) (pc : ParsedChunks)
    (id sender : string)
    (resp : list string * DataContainer * list DataContainer) : Prop :=
  (cncRequestCallback w a pc).2 = Ok tt ∧
  responses (cncRequestCallback w a pc).1 = [resp] ∧
  ∀ e',
    send (connector_ a) resp.1.1 (CTHUN_RESPONSE_SCHEMA_NAME w)
      DEFAULT_MSG_TIMEOUT_SEC resp.1.2 resp.2 = Raise e' →
    ∃ before fmt,
      (cncRequestCallback w a pc).1 =
        (before ++
         [EvLog LOG_ERROR fmt
            [arg_str id; arg_str sender; arg_str (what e')]])%list.

(** What the scan of the modules directory leaves in the registry: the
    module constructed from an entry, the modules constructed from a list of
    entries in order, and the registry after storing them one by one. *)
Definition constructed (w : World) (f : directory_entry) : option Module :=
  match status f with
  | status_error | directory_file => None
  | _ =>
      match ExternalModule_new w (path f) with
      | Ok e_m => Some e_m
      | Raise _ => None
      end
  end.

Definition loaded_modules (w : World) (fs : list directory_entry)
  : list Module :=
  omap (constructed w) fs.

Definition register (modules : gmap string Module) (ms : list Module)
  : gmap string Module :=
  fold_left (λ acc e_m, <[module_name e_m := e_m]> acc) ms modules.

(** The last module of a list that declares a name. *)
Definition last_declaring (name : string) (ms : list Module)
  : option Module :=
  last (filter (λ e_m, module_name e_m = name) ms).

(** The status of an entry can be read. *)
Definition readable (f : directory_entry) : Prop := status f ≠ status_error.

(** The scan of a directory reads the status of every entry and reaches the
    end of the directory. *)
Definition scan_completes (w : World) (dir_path : string) : Prop :=
  Forall readable (fs_directory w dir_path) ∧
  fs_directory_fails w dir_path = false.

(** The modules the scan of [dir_path] constructs when it completes. *)
Definition scanned (w : World) (dir_path : string) : list Module :=
  if is_directory (fs_status w dir_path)
  then loaded_modules w (fs_directory w dir_path) else [].

(** The first entry of a listing whose status cannot be read. *)
Definition first_unreadable (fs : list directory_entry)
  : option directory_entry :=
  List.find (λ f, bool_decide (status f = status_error)) fs.

(** The first failure of a filesystem read in the scan of [dir_path]: the
    status of the path, the status of an entry, or the iteration. *)
Definition scan_failure (w : World) (dir_path : string) : option exn :=
  match fs_status w dir_path with
  | status_error => Some (filesystem_error w dir_path)
  | directory_file =>
      match first_unreadable (fs_directory w dir_path) with
      | Some f => Some (filesystem_error w (path f))
      | None =>
          if fs_directory_fails w dir_path
          then Some (filesystem_error w dir_path) else None
      end
  | _ => None
  end.

(** The entries [loadInternalModules] stores. *)
Definition internal_modules (w : World) : list (string * Module) :=
  [ ("echo", Modules_Echo w); ("inventory", Modules_Inventory w);
    ("ping", Modules_Ping w); ("status", Modules_Status w) ].

(** The entries of a directory that are no directories. *)
Definition files (fs : list directory_entry) : list directory_entry :=
  List.filter (λ f, negb (is_directory (status f))) fs.

Definition missing_directory_warning : event :=
  EvLog LOG_WARNING
    ("Failed to locate the modules directory; external modules " +:+
     "will not be loaded") [].

(** ** A concrete installation *)

Module Demo.

Definition params_of (pc : ParsedChunks) : DataContainer :=
  match find_member "params" (data pc) with
  | Some (JObject ms) => ms
  | _ => []
  end.

Definition unknown_action (name action : string) : exn :=
  Exn request_validation_error
    ("unknown action '" +:+ action +:+ "' for module " +:+ name).

Definition echo_module : Module :=
  {| module_name := "echo"; actions := ["echo"];
     performRequest := λ action pc,
       if decide (action = "echo") then Ok (params_of pc)
       else Raise (unknown_action "echo" action) |}.

Definition constant_module (name action : string) (out : DataContainer)
  : Module :=
  {| module_name := name; actions := [action];
     performRequest := λ act _,
       if decide (act = action) then Ok out
       else Raise (unknown_action name act) |}.

Definition inventory_module : Module :=
  constant_module "inventory" "inventory" [("facts", JObject [])].
Definition ping_module : Module :=
  constant_module "ping" "ping" [("request_hops", JArray [])].
Definition status_module : Module :=
  constant_module "status" "query" [("status", JString "running")].

(** An external module whose handler fails with an exception that is no
    request error. *)
Definition crasher : Module :=
  {| module_name := "crasher"; actions := ["run"];
     performRequest := λ _ _, Raise (Exn std_exception "bad_alloc") |}.

(** An external module that declares the name of an internal one. *)
Definition impostor : Module :=
  constant_module "echo" "run" [("output", JString "external")].

Definition reverse_v1 : Module :=
  constant_module "reverse" "string" [("output", JString "v1")].
Definition reverse_v2 : Module :=
  constant_module "reverse" "string" [("output", JString "v2")].

Definition connector (send_result : result unit) : Connector :=
  {| connect := Ok tt;
     monitorConnection := λ _, ret tt;
     send := λ _ _ _ _ _, send_result |}.

Definition modules_dir : string := "/opt/agent/modules".

(** The installation: the entries of the modules directory, what the
    constructor of [ExternalModule] yields for each path, and how the
    constructor of the connector ends. *)
Definition world (entries : list directory_entry)
    (new_module : string → result Module)
    (new_connector : result Connector) : World :=
  {| CTHUN_REQUEST_SCHEMA_NAME := "http://puppetlabs.com/cnc_request";
     CTHUN_RESPONSE_SCHEMA_NAME := "http://puppetlabs.com/cnc_response";
     get_string_otherwise := λ _ _, Ok EmptyString;
     fs_system_complete := λ p, p;
     fs_parent_path := λ _, "/opt/agent";
     fs_canonical := λ p, Ok p;
     fs_status := λ p,
       if decide (p = modules_dir) then
         match entries with [] => file_not_found | _ => directory_file end
       else file_not_found;
     fs_directory := λ p, if decide (p = modules_dir) then entries else [];
     fs_directory_fails := λ _, false;
     filesystem_error_what := λ p, "cannot read " +:+ p;
     Modules_Echo := echo_module;
     Modules_Inventory := inventory_module;
     Modules_Ping := ping_module;
     Modules_Status := status_module;
     ExternalModule_new := new_module;
     Connector_new := λ _ _ _ _ _, new_connector;
     StringUtils_plural := λ n, if decide (1 < n)%nat then "s" else EmptyString |}.

Definition file (name : string) : directory_entry :=
  {| path := modules_dir +:+ "/" +:+ name; status := regular_file |}.

Definition subdirectory (name : string) : directory_entry :=
  {| path := modules_dir +:+ "/" +:+ name; status := directory_file |}.

(** No modules directory. *)
Definition bare : World :=
  world [] (λ _, Raise (Exn module_error "not found")) (Ok (connector (Ok tt))).

(** No modules directory, and a connector whose [send] times out. *)
Definition offline : World :=
  world [] (λ _, Raise (Exn module_error "not found"))
    (Ok (connector (Raise (Exn connection_error "send timed out")))).



(** A modules directory with the module [crasher]. *)
Definition crash_world : World :=
  world [file "crasher"] (λ _, Ok crasher) (Ok (connector (Ok tt))).

(** A modules directory with a file that declares the name "echo". *)
Definition impostor_world : World :=
  world [file "echo"] (λ _, Ok impostor) (Ok (connector (Ok tt))).

(** A modules directory with a subdirectory, a file that is no module and
    two files that declare the name "reverse". *)
Definition new_mixed (p : string) : result Module :=
  if decide (p = path (file "reverse_a")) then Ok reverse_v1
  else if decide (p = path (file "reverse_b")) then Ok reverse_v2
  else Raise (Exn module_error "metadata is not valid JSON").

Definition mixed_entries : list directory_entry :=
  [subdirectory "lib"; file "reverse_a"; file "README"; file "reverse_b"].

Definition mixed_world : World :=
  world mixed_entries new_mixed (Ok (connector (Ok tt))).

Definition internal_agent (wd : World) (c : Connector) : Agent :=
  {| connector_ := c; modules_ := loadInternalModules wd ∅ |}.

Definition request (d : DataContainer) (dbg : list string) : ParsedChunks :=
  {| envelope := [("id", JString "42"); ("sender", JString "cth://client")];
     has_data := true; data_type := Json; data := d; debug := dbg |}.

(** A request without data section. *)
Definition empty_request : ParsedChunks :=
  {| envelope := [("id", JString "43"); ("sender", JString "cth://client")];
     has_data := false; data_type := Json; data := []; debug := [] |}.

Definition echo_request : ParsedChunks :=
  request [("module", JString "echo"); ("action", JString "echo");
           ("params", JObject [("msg", JString "hi")])]
    ["broker: received"; "broker: forwarded"].

Definition nope_request : ParsedChunks :=
  request [("module", JString "nope"); ("action", JString "x")] [].

Definition empty_action_request : ParsedChunks :=
  request [("module", JString "echo"); ("action", JString EmptyString)] [].

Definition crasher_request : ParsedChunks :=
  request [("module", JString "crasher"); ("action", JString "run")] [].

Definition bin_path : string := "/opt/agent/bin/cthun-agent".
Definition server_url : string := "wss://broker:8090/cthun/".


Definition bare_agent : Agent := internal_agent bare (connector (Ok tt)).

Definition offline_agent : Agent :=
  internal_agent offline
    (connector (Raise (Exn connection_error "send timed out"))).


(** The agent constructed in [impostor_world]. *)
Definition impostor_agent : Agent :=
  {| connector_ := connector (Ok tt);
     modules_ := <["echo" := impostor]> (loadInternalModules impostor_world ∅) |}.

(** The agent constructed in [crash_world]. *)
Definition crash_agent : Agent :=
  {| connector_ := connector (Ok tt);
     modules_ := <["crasher" := crasher]> (loadInternalModules crash_world ∅) |}.

End Demo.

(** ** Further observations *)

(** The exception that leaves the constructor of the agent when [e] is
    raised inside it. *)
Definition rethrown (e : exn) : exn :=
  if is_a (class_of e) connection_config_error
  then Exn fatal_error ("failed to configure the agent: " +:+ what e)
  else e.

Definition is_error_log (ev : event) : bool :=
  match ev with EvLog LOG_ERROR _ _ => true | _ => false end.

(** The line [logLoadedModules] writes for an entry of the registry. *)
Definition loaded_line (w : World) (module : string * Module) : event :=
  EvLog LOG_INFO "Loaded '%1%' module - %2%%3%%4%"
    [ arg_str module.1;
      arg_str (actions_text (actions module.2)).1;
      arg_str (StringUtils_plural w (List.length (actions module.2)));
      arg_str (actions_text (actions module.2)).2 ].

(** The line the scan writes for a constructor that raised [e]. *)
Definition failure_line (f_p : string) (e : exn) : event :=
  if is_a (class_of e) module_error then
    EvLog LOG_ERROR "Failed to load %1%; %2%" [arg_str f_p; arg_str (what e)]
  else if is_a (class_of e) std_exception then
    EvLog LOG_ERROR "Unexpected error when loading %1%; %2%"
      [arg_str f_p; arg_str (what e)]
  else
    EvLog LOG_ERROR "Unexpected error when loading %1%" [arg_str f_p].

(** An installation whose containers raise on a key they do not hold. *)
Module Strict.

Definition missing_key (key : string) : exn :=
  Exn std_exception ("unknown key: " +:+ key).

Definition world : World :=
  {| CTHUN_REQUEST_SCHEMA_NAME := CTHUN_REQUEST_SCHEMA_NAME Demo.bare;
     CTHUN_RESPONSE_SCHEMA_NAME := CTHUN_RESPONSE_SCHEMA_NAME Demo.bare;
     get_string_otherwise := λ _ key, Raise (missing_key key);
     fs_system_complete := fs_system_complete Demo.bare;
     fs_parent_path := fs_parent_path Demo.bare;
     fs_canonical := fs_canonical Demo.bare;
     fs_status := fs_status Demo.bare;
     fs_directory := fs_directory Demo.bare;
     fs_directory_fails := fs_directory_fails Demo.bare;
     filesystem_error_what := filesystem_error_what Demo.bare;
     Modules_Echo := Demo.echo_module;
     Modules_Inventory := Demo.inventory_module;
     Modules_Ping := Demo.ping_module;
     Modules_Status := Demo.status_module;
     ExternalModule_new := ExternalModule_new Demo.bare;
     Connector_new := Connector_new Demo.bare;
     StringUtils_plural := StringUtils_plural Demo.bare |}.

Definition agent : Agent := Demo.internal_agent world (Demo.connector (Ok tt)).

(** A message whose envelope has no sender. *)
Definition anonymous_request : ParsedChunks :=
  {| envelope := [("id", JString "44")];
     has_data := true; data_type := Json;
     data := [("module", JString "echo"); ("action", JString "echo")];
     debug := [] |}.

(** A connector whose connection is refused, and one that loses it. *)
Definition refused : Connector :=
  {| connect := Raise (Exn connection_fatal_error "connection refused");
     monitorConnection := λ _, ret tt;
     send := λ _ _ _ _ _, Ok tt |}.


(** A request for an action that echo does not have. *)
Definition bad_action_request : ParsedChunks :=
  Demo.request [("module", JString "echo"); ("action", JString "reverse")] [].

(** Binary data. *)
Definition binary_request : ParsedChunks :=
  {| envelope := [("id", JString "45"); ("sender", JString "cth://client")];
     has_data := true; data_type := Binary; data := []; debug := [] |}.

(** A modules directory with an entry whose status cannot be read, a
    dangling mount for instance, between two modules. *)
Definition stale (name : string) : directory_entry :=
  {| path := Demo.modules_dir +:+ "/" +:+ name; status := status_error |}.

Definition stale_world : World :=
  Demo.world [Demo.file "reverse_a"; stale "mnt"; Demo.file "reverse_b"]
    Demo.new_mixed (Ok (Demo.connector (Ok tt))).

End Strict.

(** ** Trace and result of composed computations *)

Lemma result_bind {A B} (m : M A) (k : A → M B) :
  (bind m k).2 = match m.2 with Ok x => (k x).2 | Raise e => Raise e end.
Proof. destruct m as [t [x|e]]; simpl; [|done]. by destruct (k x). Qed.

Lemma trace_bind {A B} (m : M A) (k : A → M B) :
  (bind m k).1 =
    (m.1 ++ match m.2 with Ok x => (k x).1 | Raise _ => [] end)%list.
Proof.
  destruct m as [t [x|e]]; simpl; [|by rewrite app_nil_r]. by destruct (k x).
Qed.

Lemma result_try_catch {A} (body : M A) hs :
  (try_catch body hs).2 =
    match body.2 with
    | Ok x => Ok x
    | Raise e =>
        match select_handler hs e with
        | Some k => (k e).2
        | None => Raise e
        end
    end.
Proof.
  destruct body as [t [x|e]]; simpl; [done|].
  destruct (select_handler hs e) as [k|]; [|done]. by destruct (k e).
Qed.

Lemma trace_try_catch {A} (body : M A) hs :
  (try_catch body hs).1 =
    (body.1 ++
     match body.2 with
     | Ok x => []
     | Raise e =>
         match select_handler hs e with
         | Some k => (k e).1
         | None => []
         end
     end)%list.
Proof.
  destruct body as [t [x|e]]; simpl; [by rewrite app_nil_r|].
  destruct (select_handler hs e) as [k|]; [|by rewrite app_nil_r].
  by destruct (k e).
Qed.

Lemma M_eq {A} (m : M A) t r : m.1 = t → m.2 = r → m = (t, r).
Proof. destruct m; cbn; congruence. Qed.

(** Push the projections through the combinators and evaluate the steps
    whose outcome is known. *)
Ltac run :=
  repeat (rewrite ?result_bind, ?trace_bind, ?result_try_catch,
            ?trace_try_catch;
          cbn [fst snd lift emit log throw ret select_handler catches]).

(** Case analysis on the next [send] or on the class of an exception. *)
Ltac case_send :=
  match goal with
  | |- context [send (connector_ ?a) ?t ?s ?n ?d ?dbg] =>
      destruct (send (connector_ a) t s n d dbg) as [[]|?e] eqn:?E; run
  | |- context [is_a (class_of ?e) ?c] =>
      destruct (is_a (class_of e) c) eqn:?; run
  end.

Lemma responses_app tr1 tr2 :
  responses (tr1 ++ tr2) = (responses tr1 ++ responses tr2)%list.
Proof. apply omap_app. Qed.

(** ** The request callback *)

Section Dispatch.

Context (w : World).

Implicit Types (a : Agent) (pc : ParsedChunks) (e : exn).

Lemma dispatch_no_data a pc :
  has_data pc = false →
  dispatch_request w a pc =
    ([], Raise (Exn request_validation_error "no data")).
Proof. intros H. unfold dispatch_request. by rewrite H. Qed.

Lemma dispatch_not_json a pc :
  has_data pc = true → data_type pc ≠ Json →
  dispatch_request w a pc =
    ([], Raise (Exn request_validation_error "data is not in JSON format")).
Proof.
  intros H1 H2. unfold dispatch_request. rewrite H1. simpl.
  by destruct (decide (data_type pc ≠ Json)).
Qed.

Lemma dispatch_unknown_module a pc name action :
  has_data pc = true → data_type pc = Json →
  get_string w (data pc) "module" = Ok name →
  get_string w (data pc) "action" = Ok action →
  modules_ a !! name = None →
  dispatch_request w a pc =
    ([EvFind name],
     Raise (Exn request_validation_error ("unknown module: " +:+ name))).
Proof.
  intros H1 H2 Hm Ha Hn. unfold dispatch_request.
  rewrite H1, H2, Hm, Ha. simpl. by rewrite Hn.
Qed.

Lemma dispatch_known_module a pc name action module_ptr :
  has_data pc = true → data_type pc = Json →
  get_string w (data pc) "module" = Ok name →
  get_string w (data pc) "action" = Ok action →
  modules_ a !! name = Some module_ptr →
  dispatch_request w a pc =
    ([EvFind name; EvAt name; EvPerformRequest name action],
     performRequest module_ptr action pc).
Proof.
  intros H1 H2 Hm Ha Hn. unfold dispatch_request, modules_at.
  rewrite H1, H2, Hm, Ha. simpl. rewrite Hn. simpl.
  by destruct (performRequest module_ptr action pc).
Qed.

Lemma dispatch_trace a pc ev :
  ev ∈ (dispatch_request w a pc).1 →
  (∃ name, ev = EvFind name) ∨ (∃ name, ev = EvAt name) ∨
  (∃ name action, ev = EvPerformRequest name action).
Proof.
  unfold dispatch_request, modules_at. run.
  destruct (has_data pc); cbn [negb]; run; [|by intros ?%elem_of_nil].
  destruct (decide _); run; [by intros ?%elem_of_nil|].
  destruct (get_string w (data pc) "module") as [name|]; run;
    [|by intros ?%elem_of_nil].
  destruct (get_string w (data pc) "action") as [action|]; run;
    [|by intros ?%elem_of_nil].
  destruct (modules_ a !! name); run; cbn [app];
    rewrite ?elem_of_cons, ?elem_of_nil; intuition eauto.
Qed.

Lemma dispatch_no_response a pc : responses (dispatch_request w a pc).1 = [].
Proof.
  assert (∀ tr, (∀ ev, ev ∈ tr → response_of ev = None) → responses tr = [])
    as Hnil.
  { induction tr as [|ev tr IH]; intros H; [done|].
    unfold responses in *. cbn [omap list_omap].
    rewrite (H ev) by set_solver. apply IH. intros; apply H; set_solver. }
  apply Hnil. intros ev [[? ->]|[[? ->]|(? & ? & ->)]]%dispatch_trace; done.
Qed.

Lemma callback_result a pc id sender :
  get_string w (envelope pc) "id" = Ok id →
  get_string w (envelope pc) "sender" = Ok sender →
  send_raises_connection_errors (connector_ a) →
  (cncRequestCallback w a pc).2 =
    match (dispatch_request w a pc).2 with
    | Ok _ => Ok tt
    | Raise e => if is_a (class_of e) request_error then Ok tt else Raise e
    end.
Proof.
  intros Hid Hs Hsend. unfold cncRequestCallback, connector_send.
  run. rewrite Hid. run. rewrite Hs. run.
  destruct (dispatch_request w a pc).2 as [d|e]; run.
  - destruct (send (connector_ a) _ _ _ _ _) as [[]|e] eqn:E; run; [done|].
    by rewrite (Hsend _ _ _ _ _ _ E).
  - destruct (is_a (class_of e) request_error); run; [|done].
    destruct (send (connector_ a) _ _ _ _ _) as [[]|e'] eqn:E; run; [done|].
    by rewrite (Hsend _ _ _ _ _ _ E).
Qed.

Lemma callback_trace a pc id sender :
  get_string w (envelope pc) "id" = Ok id →
  get_string w (envelope pc) "sender" = Ok sender →
  send_raises_connection_errors (connector_ a) →
  ∃ tail,
    (cncRequestCallback w a pc).1 =
      (preamble id sender pc ++ (dispatch_request w a pc).1 ++ tail)%list ∧
    match (dispatch_request w a pc).2 with
    | Raise e =>
        if is_a (class_of e) request_error then
          ∃ fmt1 send_ev,
            send_ev =
              EvSend [sender] (CTHUN_RESPONSE_SCHEMA_NAME w)
                DEFAULT_MSG_TIMEOUT_SEC (error_payload (what e)) [] ∧
            match send (connector_ a) [sender] (CTHUN_RESPONSE_SCHEMA_NAME w)
                    DEFAULT_MSG_TIMEOUT_SEC (error_payload (what e)) [] with
            | Ok _ =>
                tail =
                  [EvLog LOG_ERROR fmt1
                     [arg_str id; arg_str sender; arg_str (what e)]; send_ev]
            | Raise e' =>
                ∃ fmt2,
                  tail =
                    [EvLog LOG_ERROR fmt1
                       [arg_str id; arg_str sender; arg_str (what e)];
                     send_ev;
                     EvLog LOG_ERROR fmt2
                       [arg_str id; arg_str sender; arg_str (what e')]]
            end
        else tail = []
    | Ok d =>
        ∃ send_ev,
          send_ev =
            EvSend [sender] (CTHUN_RESPONSE_SCHEMA_NAME w)
              DEFAULT_MSG_TIMEOUT_SEC d (wrap_debug pc) ∧
          match send (connector_ a) [sender] (CTHUN_RESPONSE_SCHEMA_NAME w)
                  DEFAULT_MSG_TIMEOUT_SEC d (wrap_debug pc) with
          | Ok _ => tail = [send_ev]
          | Raise e' =>
              ∃ fmt,
                tail =
                  [send_ev;
                   EvLog LOG_ERROR fmt
                     [arg_str id; arg_str sender; arg_str (what e')]]
          end
    end.
Proof.
  intros Hid Hs Hsend. unfold cncRequestCallback, connector_send.
  run. rewrite Hid. run. rewrite Hs. run.
  unfold preamble. cbn [app].
  destruct (dispatch_request w a pc).2 as [d|e]; run.
  - destruct (send (connector_ a) _ _ _ _ _) as [[]|e] eqn:E; run.
    + rewrite ?app_nil_r. eexists. split; [reflexivity|eauto].
    + rewrite (Hsend _ _ _ _ _ _ E). run.
      rewrite ?app_nil_r. cbn [app]. eexists. split; [reflexivity|eauto].
  - destruct (is_a (class_of e) request_error); run;
      [|exists []; split; [by rewrite ?app_nil_r|done]].
    unfold set_string, set_member, error_payload.
    destruct (send (connector_ a) _ _ _ _ _) as [[]|e'] eqn:E; run.
    + rewrite ?app_nil_r. cbn [app]. eexists. split; [reflexivity|eauto].
    + rewrite (Hsend _ _ _ _ _ _ E). run.
      rewrite ?app_nil_r. cbn [app]. eexists. split; [reflexivity|eauto].
Qed.

(** The events of the dispatch are part of the trace of the callback. *)
Lemma callback_trace_dispatch a pc id sender :
  get_string w (envelope pc) "id" = Ok id →
  get_string w (envelope pc) "sender" = Ok sender →
  ∃ t1 t2,
    (cncRequestCallback w a pc).1 =
      (t1 ++ (dispatch_request w a pc).1 ++ t2)%list.
Proof.
  intros Hid Hs. unfold cncRequestCallback.
  run. rewrite Hid. run. rewrite Hs. run.
  eexists [_; _], _. cbn [app]. by rewrite <- !app_assoc.
Qed.

(** The responses of the callback for each outcome of the dispatch, whatever
    the connector does. *)
Lemma callback_responses a pc id sender :
  get_string w (envelope pc) "id" = Ok id →
  get_string w (envelope pc) "sender" = Ok sender →
  match (dispatch_request w a pc).2 with
  | Ok d =>
      ∃ rest,
        responses (cncRequestCallback w a pc).1 =
          ([sender], d, wrap_debug pc) :: rest ∧
        (rest = [] ∨
         ∃ e', rest = [([sender], error_payload (what e'), [])] ∧
               send (connector_ a) [sender] (CTHUN_RESPONSE_SCHEMA_NAME w)
                 DEFAULT_MSG_TIMEOUT_SEC d (wrap_debug pc) = Raise e' ∧
               is_a (class_of e') connection_error = false)
  | Raise e =>
      responses (cncRequestCallback w a pc).1 =
        if is_a (class_of e) request_error
        then [([sender], error_payload (what e), [])] else []
  end.
Proof.
  intros Hid Hs. unfold cncRequestCallback, connector_send.
  run. rewrite Hid. run. rewrite Hs. run.
  rewrite !responses_app, dispatch_no_response.
  destruct (dispatch_request w a pc).2 as [d|e]; run; repeat case_send;
    simpl; try done;
    (eexists; split; [reflexivity|]);
    first [by left | right; eexists; by repeat split].
Qed.

(** Lookups and calls of handlers happen in the dispatch only. *)
Lemma callback_touches a pc id sender ev :
  get_string w (envelope pc) "id" = Ok id →
  get_string w (envelope pc) "sender" = Ok sender →
  ev ∈ (cncRequestCallback w a pc).1 →
  is_lookup ev = true ∨ is_perform ev = true →
  ev ∈ (dispatch_request w a pc).1.
Proof.
  intros Hid Hs. unfold cncRequestCallback, connector_send.
  run. rewrite Hid. run. rewrite Hs. run.
  destruct (dispatch_request w a pc).2 as [d|e]; run; repeat case_send;
    rewrite ?elem_of_app, ?elem_of_cons, ?elem_of_nil;
    intros Hin Hev; decompose [or] Hin; subst; try done;
    destruct Hev; discriminate.
Qed.

Lemma has_type_string v :
  has_type T_C_String v = true ↔ ∃ s, v = JString s.
Proof. destruct v; cbn; split; try done; eauto; by intros [? ?]. Qed.

Lemma has_type_object v :
  has_type T_C_Object v = true ↔ ∃ ms, v = JObject ms.
Proof. destruct v; cbn; split; try done; eauto; by intros [? ?]. Qed.

(** What a required string field asks of the data. *)
Lemma required_string_field d key :
  match find_member key d with
  | Some v => has_type T_C_String v
  | None => negb true
  end = true ↔
  ∃ s, find_member key d = Some (JString s).
Proof.
  destruct (find_member key d) as [v|]; cbn [negb].
  - rewrite has_type_string. split; intros [s Hs]; exists s; congruence.
  - split; [done|]. by intros [? ?].
Qed.

(** What an optional object field asks of the data. *)
Lemma optional_object_field d key :
  match find_member key d with
  | Some v => has_type T_C_Object v
  | None => negb false
  end = true ↔
  find_member key d = None ∨ ∃ ms, find_member key d = Some (JObject ms).
Proof.
  destruct (find_member key d) as [v|]; cbn [negb].
  - rewrite has_type_object. split.
    + intros [ms ->]. right. by exists ms.
    + intros [?|[ms Hms]]; [done|]. exists ms. congruence.
  - split; [by left|done].
Qed.

Lemma request_schema_conforms d :
  conforms (getCncRequestSchema w) d = true ↔
  (∃ name, find_member "module" d = Some (JString name)) ∧
  (∃ action, find_member "action" d = Some (JString action)) ∧
  (find_member "params" d = None ∨
   ∃ ms, find_member "params" d = Some (JObject ms)).
Proof.
  unfold conforms, getCncRequestSchema, addConstraint, Schema_new.
  cbn [constraints app forallb fst snd].
  rewrite !andb_true_iff, !required_string_field, optional_object_field.
  tauto.
Qed.

Lemma get_string_found d key s :
  find_member key d = Some (JString s) → get_string w d key = Ok s.
Proof. intros H. unfold get_string. by rewrite H. Qed.

(** The callback answers the outcome of the dispatch when that is a payload
    or a request error. *)
Lemma callback_answers_dispatch a pc id sender :
  get_string w (envelope pc) "id" = Ok id →
  get_string w (envelope pc) "sender" = Ok sender →
  send_raises_connection_errors (connector_ a) →
  request_level (dispatch_request w a pc).2 →
  answered_once w a pc id sender
    (response_for sender pc (dispatch_request w a pc).2).
Proof.
  intros Hid Hs Hsend Hr. unfold answered_once.
  pose proof (callback_result a pc id sender Hid Hs Hsend) as Hres.
  pose proof (callback_responses a pc id sender Hid Hs) as Hresp.
  destruct (callback_trace a pc id sender Hid Hs Hsend) as (tail & Htr & Htail).
  unfold request_level in Hr. revert Hr Hres Hresp Htail.
  destruct (dispatch_request w a pc).2 as [d|e]; cbn [response_for fst snd];
    intros Hr Hres Hresp Htail.
  - split; [exact Hres|].
    destruct Hresp as (rest & Hresp & Hrest). split.
    + destruct Hrest as [->|(e' & _ & Hs' & He')]; [exact Hresp|].
      apply Hsend in Hs'. rewrite Hs' in He'. discriminate He'.
    + intros e' He'. rewrite He' in Htail.
      destruct Htail as (send_ev & _ & fmt & ->).
      exists (preamble id sender pc ++ (dispatch_request w a pc).1 ++
              [send_ev])%list, fmt.
      rewrite Htr, <- !app_assoc. reflexivity.
  - rewrite Hr in Hres, Hresp, Htail.
    split; [exact Hres|]. split; [exact Hresp|].
    intros e' He'. destruct Htail as (fmt1 & send_ev & _ & Htail).
    rewrite He' in Htail. destruct Htail as (fmt2 & ->).
    exists (preamble id sender pc ++ (dispatch_request w a pc).1 ++
            [EvLog LOG_ERROR fmt1
               [arg_str id; arg_str sender; arg_str (what e)]; send_ev])%list,
      fmt2.
    rewrite Htr, <- !app_assoc. reflexivity.
Qed.

(** An exception of the dispatch that is no request error leaves the
    callback, and nothing is sent. *)
Lemma callback_foreign_exception a pc id sender e :
  get_string w (envelope pc) "id" = Ok id →
  get_string w (envelope pc) "sender" = Ok sender →
  send_raises_connection_errors (connector_ a) →
  (dispatch_request w a pc).2 = Raise e →
  is_a (class_of e) request_error = false →
  (cncRequestCallback w a pc).2 = Raise e ∧
  responses (cncRequestCallback w a pc).1 = [].
Proof.
  intros Hid Hs Hsend Hd Hreq.
  pose proof (callback_result a pc id sender Hid Hs Hsend) as Hres.
  pose proof (callback_responses a pc id sender Hid Hs) as Hresp.
  rewrite Hd in Hres, Hresp. by rewrite Hreq in Hres, Hresp.
Qed.

(** The exceptions raised while the data are read or by the handler are
    exceptions of the dispatch. *)
Lemma dispatch_unreadable_data a pc e :
  has_data pc = true → data_type pc = Json →
  get_string w (data pc) "module" = Raise e ∨
  (∃ name, get_string w (data pc) "module" = Ok name ∧
           get_string w (data pc) "action" = Raise e) →
  (dispatch_request w a pc).2 = Raise e.
Proof.
  intros H1 H2 Hget. unfold dispatch_request. rewrite H1, H2. run.
  destruct Hget as [->|(name & -> & ->)]; by run.
Qed.

(** C1, as amended: for a message whose envelope is read, answered through
    a connector whose [send] raises connection errors only, the callback
    returns and hands exactly one response to the connector, addressed to the
    sender, in each of these cases: the error "no data" or "data is not in
    JSON format"; the error "unknown module: " and the name when the registry
    does not hold the module; the payload of [performRequest] with the
    wrapped debug data when the handler returns; the message of the
    exception when the handler raises a request error.  If that [send]
    raises, the trace ends with the error line and there is no second
    [send].  When the handler raises an exception that is no request error,
    the exception leaves the callback and no response is sent. *)
Theorem callback_sends_exactly_one_response a pc id sender :
  get_string w (envelope pc) "id" = Ok id →
  get_string w (envelope pc) "sender" = Ok sender →
  send_raises_connection_errors (connector_ a) →
  if negb (has_data pc) then
    answered_once w a pc id sender ([sender], error_payload "no data", [])
  else if decide (data_type pc ≠ Json) then
    answered_once w a pc id sender
      ([sender], error_payload "data is not in JSON format", [])
  else
    ∀ name action,
      get_string w (data pc) "module" = Ok name →
      get_string w (data pc) "action" = Ok action →
      match modules_ a !! name with
      | None =>
          answered_once w a pc id sender
            ([sender], error_payload ("unknown module: " +:+ name), [])
      | Some module_ptr =>
          match performRequest module_ptr action pc with
          | Ok data_json =>
              answered_once w a pc id sender
                ([sender], data_json, wrap_debug pc)
          | Raise e =>
              if is_a (class_of e) request_error then
                answered_once w a pc id sender
                  ([sender], error_payload (what e), [])
              else
                (cncRequestCallback w a pc).2 = Raise e ∧
                responses (cncRequestCallback w a pc).1 = []
          end
      end.
Proof.
  intros Hid Hs Hsend.
  pose proof (callback_answers_dispatch a pc id sender Hid Hs Hsend) as Hans.
  destruct (has_data pc) eqn:Hhas; cbn [negb].
  2: { rewrite (dispatch_no_data a pc Hhas) in Hans. by apply Hans. }
  destruct (decide (data_type pc ≠ Json)) as [Hty|Hty].
  { rewrite (dispatch_not_json a pc Hhas Hty) in Hans. by apply Hans. }
  apply dec_stable in Hty. intros name action Hm Ha.
  destruct (modules_ a !! name) as [module_ptr|] eqn:Hl.
  - pose proof (dispatch_known_module a pc name action module_ptr
                  Hhas Hty Hm Ha Hl) as Hd.
    destruct (performRequest module_ptr action pc) as [d|e] eqn:Hp.
    + rewrite Hd in Hans. by apply Hans.
    + destruct (is_a (class_of e) request_error) eqn:Hreq.
      * rewrite Hd in Hans. by apply Hans.
      * apply (callback_foreign_exception a pc id sender e Hid Hs Hsend);
          [by rewrite Hd|done].
  - rewrite (dispatch_unknown_module a pc name action Hhas Hty Hm Ha Hl)
      in Hans.
    by apply Hans.
Qed.

(** C2, as amended: with the envelope read and a connector whose [send]
    raises connection errors only, the callback raises exactly the exceptions
    of the dispatch that are no request errors, and sends no response for
    them; a request error of the dispatch is caught and answered with the
    error response.  The exceptions of the dispatch include every exception
    raised by the handler of the requested module and by the reading of the
    module and action names. *)
Theorem callback_propagates_only_foreign_exceptions a pc id sender :
  get_string w (envelope pc) "id" = Ok id →
  get_string w (envelope pc) "sender" = Ok sender →
  send_raises_connection_errors (connector_ a) →
  (∀ e, (cncRequestCallback w a pc).2 = Raise e ↔
        (dispatch_request w a pc).2 = Raise e ∧
        is_a (class_of e) request_error = false) ∧
  (∀ e, (dispatch_request w a pc).2 = Raise e →
        is_a (class_of e) request_error = true →
        (cncRequestCallback w a pc).2 = Ok tt ∧
        responses (cncRequestCallback w a pc).1 =
          [([sender], error_payload (what e), [])]) ∧
  (∀ e, (dispatch_request w a pc).2 = Raise e →
        is_a (class_of e) request_error = false →
        responses (cncRequestCallback w a pc).1 = []) ∧
  (∀ name action module_ptr e,
     has_data pc = true → data_type pc = Json →
     get_string w (data pc) "module" = Ok name →
     get_string w (data pc) "action" = Ok action →
     modules_ a !! name = Some module_ptr →
     performRequest module_ptr action pc = Raise e →
     (dispatch_request w a pc).2 = Raise e) ∧
  (∀ e,
     has_data pc = true → data_type pc = Json →
     get_string w (data pc) "module" = Raise e ∨
     (∃ name, get_string w (data pc) "module" = Ok name ∧
              get_string w (data pc) "action" = Raise e) →
     (dispatch_request w a pc).2 = Raise e).
Proof.
  intros Hid Hs Hsend.
  pose proof (callback_result a pc id sender Hid Hs Hsend) as Hres.
  pose proof (callback_responses a pc id sender Hid Hs) as Hresp.
  split; [|split; [|split; [|split]]].
  - rewrite Hres. intros e.
    destruct (dispatch_request w a pc).2 as [d|e0].
    + split; [discriminate|]. by intros [? _].
    + destruct (is_a (class_of e0) request_error) eqn:E.
      * split; [discriminate|]. intros [[= ->] ?]. congruence.
      * split; [by intros [= ->]|]. by intros [[= ->] _].
  - intros e He Hreq. rewrite Hres. rewrite He in Hresp |- *.
    rewrite Hreq in Hresp |- *. by split.
  - intros e He Hreq.
    by apply (callback_foreign_exception a pc id sender e Hid Hs Hsend).
  - intros name action module_ptr e Hhas Hty Hm Ha Hl Hp.
    by rewrite (dispatch_known_module a pc name action module_ptr
                  Hhas Hty Hm Ha Hl).
  - intros e. apply dispatch_unreadable_data.
Qed.

(** C3: a request without data section, or whose data is not JSON, is
    answered with the validation error alone; the registry is not searched
    and no handler is called. *)
Theorem invalid_envelope_touches_no_module a pc id sender :
  get_string w (envelope pc) "id" = Ok id →
  get_string w (envelope pc) "sender" = Ok sender →
  has_data pc = false ∨ data_type pc ≠ Json →
  ∃ msg,
    (msg = "no data" ∨ msg = "data is not in JSON format") ∧
    (dispatch_request w a pc).2 = Raise (Exn request_validation_error msg) ∧
    responses (cncRequestCallback w a pc).1 =
      [([sender], error_payload msg, [])] ∧
    Forall (λ ev, is_lookup ev = false ∧ is_perform ev = false)
           (cncRequestCallback w a pc).1.
Proof.
  intros Hid Hs Hbad.
  assert (∃ msg, (msg = "no data" ∨ msg = "data is not in JSON format") ∧
                 dispatch_request w a pc =
                   ([], Raise (Exn request_validation_error msg)))
    as (msg & Hmsg & Hd).
  { destruct (has_data pc) eqn:Hhas.
    - destruct Hbad as [?|Hty]; [done|].
      eexists. split; [by right|]. by apply dispatch_not_json.
    - eexists. split; [by left|]. by apply dispatch_no_data. }
  exists msg. split; [done|]. split; [by rewrite Hd|].
  pose proof (callback_responses a pc id sender Hid Hs) as Hresp.
  rewrite Hd in Hresp. cbn [snd] in Hresp. split; [done|].
  apply Forall_forall. intros ev Hin.
  destruct (is_lookup ev) eqn:El.
  { apply (callback_touches a pc id sender ev Hid Hs) in Hin; [|by left].
    rewrite Hd in Hin. by apply elem_of_nil in Hin. }
  destruct (is_perform ev) eqn:Ep; [|done].
  apply (callback_touches a pc id sender ev Hid Hs) in Hin; [|by right].
  rewrite Hd in Hin. by apply elem_of_nil in Hin.
Qed.

(** A trace of the callback has no call of a handler when the dispatch has
    none. *)
Lemma callback_performs_in_dispatch a pc id sender :
  get_string w (envelope pc) "id" = Ok id →
  get_string w (envelope pc) "sender" = Ok sender →
  Forall (λ ev, is_perform ev = false) (dispatch_request w a pc).1 →
  Forall (λ ev, is_perform ev = false) (cncRequestCallback w a pc).1.
Proof.
  intros Hid Hs Hd. apply Forall_forall. intros ev Hin.
  destruct (is_perform ev) eqn:Ep; [|done].
  apply (callback_touches a pc id sender ev Hid Hs) in Hin; [|by right].
  apply (proj1 (Forall_forall _ _) Hd) in Hin. congruence.
Qed.

(** C4: a request for a module name that the registry does not hold is
    answered with the error "unknown module: " followed by that name, and no
    handler is called. *)
Theorem unknown_module_error_response a pc id sender name action :
  get_string w (envelope pc) "id" = Ok id →
  get_string w (envelope pc) "sender" = Ok sender →
  has_data pc = true → data_type pc = Json →
  get_string w (data pc) "module" = Ok name →
  get_string w (data pc) "action" = Ok action →
  modules_ a !! name = None →
  responses (cncRequestCallback w a pc).1 =
    [([sender], error_payload ("unknown module: " +:+ name), [])] ∧
  Forall (λ ev, is_perform ev = false) (cncRequestCallback w a pc).1.
Proof.
  intros Hid Hs Hhas Hty Hm Ha Hnone.
  pose proof (dispatch_unknown_module a pc name action Hhas Hty Hm Ha Hnone)
    as Hd.
  pose proof (callback_responses a pc id sender Hid Hs) as Hresp.
  rewrite Hd in Hresp. cbn [snd] in Hresp. split; [exact Hresp|].
  apply (callback_performs_in_dispatch a pc id sender Hid Hs).
  rewrite Hd. cbn [fst]. by repeat constructor.
Qed.

(** C5, as amended: the request schema asks for [module] and [action] as
    strings and says nothing of empty ones.  For data that conforms, the
    callback reads both names and looks the module up: a name the registry
    does not hold, the empty one included, is answered with the unknown
    module error and no handler is called; for a name it holds, the handler
    is called with the action name as it stands. *)
Theorem conforming_request_reaches_lookup a pc id sender :
  get_string w (envelope pc) "id" = Ok id →
  get_string w (envelope pc) "sender" = Ok sender →
  has_data pc = true → data_type pc = Json →
  conforms (getCncRequestSchema w) (data pc) = true →
  ∃ name action,
    find_member "module" (data pc) = Some (JString name) ∧
    find_member "action" (data pc) = Some (JString action) ∧
    EvFind name ∈ (cncRequestCallback w a pc).1 ∧
    match modules_ a !! name with
    | None =>
        responses (cncRequestCallback w a pc).1 =
          [([sender], error_payload ("unknown module: " +:+ name), [])] ∧
        Forall (λ ev, is_perform ev = false) (cncRequestCallback w a pc).1
    | Some _ => EvPerformRequest name action ∈ (cncRequestCallback w a pc).1
    end.
Proof.
  intros Hid Hs Hhas Hty
    ([name Hm] & [action Ha] & _)%request_schema_conforms.
  exists name, action. split; [done|]. split; [done|].
  pose proof (get_string_found _ _ _ Hm) as Hgm.
  pose proof (get_string_found _ _ _ Ha) as Hga.
  destruct (callback_trace_dispatch a pc id sender Hid Hs) as (t1 & t2 & Htr).
  destruct (modules_ a !! name) as [module_ptr|] eqn:Hl.
  - rewrite Htr,
      (dispatch_known_module a pc name action module_ptr Hhas Hty Hgm Hga Hl).
    cbn [fst]. rewrite !elem_of_app, !elem_of_cons. tauto.
  - pose proof
      (dispatch_unknown_module a pc name action Hhas Hty Hgm Hga Hl) as Hd.
    split; [rewrite Htr, Hd; cbn [fst];
            rewrite !elem_of_app, !elem_of_cons; tauto|].
    split.
    + pose proof (callback_responses a pc id sender Hid Hs) as Hresp.
      rewrite Hd in Hresp. exact Hresp.
    + apply (callback_performs_in_dispatch a pc id sender Hid Hs).
      rewrite Hd. cbn [fst]. by repeat constructor.
Qed.

(** C10: the response to a successful dispatch carries one entry
    [{debug_data: s}] for each debug string [s] of the request, in order; a
    response that reports a request error carries no debug entry. *)
Theorem debug_entries_forwarded_on_success_only a pc id sender :
  get_string w (envelope pc) "id" = Ok id →
  get_string w (envelope pc) "sender" = Ok sender →
  match (dispatch_request w a pc).2 with
  | Ok d =>
      ∃ rest,
        responses (cncRequestCallback w a pc).1 =
          ([sender], d, map (λ s, [("debug_data", JString s)]) (debug pc))
          :: rest ∧
        Forall (λ resp, ∃ msg, resp = ([sender], error_payload msg, [])) rest
  | Raise e =>
      Forall (λ resp, resp = ([sender], error_payload (what e), []))
             (responses (cncRequestCallback w a pc).1)
  end.
Proof.
  intros Hid Hs.
  pose proof (callback_responses a pc id sender Hid Hs) as Hresp.
  revert Hresp. destruct (dispatch_request w a pc).2 as [d|e]; intros Hresp.
  - destruct Hresp as (rest & -> & Hrest). exists rest. split; [done|].
    destruct Hrest as [->|(e' & -> & _)]; [done|].
    constructor; [by eexists|done].
  - rewrite Hresp. destruct (is_a _ _); by repeat constructor.
Qed.

End Dispatch.

(** ** Loading the modules *)

Section Loading.

Context (w : World).

Implicit Types (f : directory_entry) (fs : list directory_entry).
Implicit Types (modules : gmap string Module) (ms : list Module).

Lemma register_snoc modules ms e_m :
  register modules (ms ++ [e_m]) =
    <[module_name e_m := e_m]> (register modules ms).
Proof. unfold register. by rewrite fold_left_app. Qed.

Lemma register_cons modules ms e_m :
  register modules (e_m :: ms) =
    register (<[module_name e_m := e_m]> modules) ms.
Proof. done. Qed.

Lemma register_other modules ms name :
  (∀ x, x ∈ ms → module_name x ≠ name) →
  register modules ms !! name = modules !! name.
Proof.
  induction ms as [|x ms IH] using rev_ind; intros Hne; [done|].
  rewrite register_snoc, lookup_insert_ne.
  - apply IH. intros y Hy. apply Hne. rewrite elem_of_app. by left.
  - apply Hne. rewrite elem_of_app, list_elem_of_singleton. by right.
Qed.

Lemma register_last modules ms1 e_m ms2 :
  (∀ x, x ∈ ms2 → module_name x ≠ module_name e_m) →
  register modules (ms1 ++ e_m :: ms2) !! module_name e_m = Some e_m.
Proof.
  intros Hne. unfold register. rewrite fold_left_app. cbn [fold_left].
  fold (register (<[module_name e_m := e_m]> (fold_left
          (λ acc x, <[module_name x := x]> acc) ms1 modules)) ms2).
  rewrite register_other by done. apply lookup_insert_eq.
Qed.

Lemma register_lookup_Some modules ms name m :
  register modules ms !! name = Some m →
  (m ∈ ms ∧ module_name m = name) ∨ modules !! name = Some m.
Proof.
  induction ms as [|x ms IH] using rev_ind; [by right|].
  rewrite register_snoc.
  destruct (decide (module_name x = name)) as [<-|Hne].
  - rewrite lookup_insert_eq. intros [= <-]. left.
    split; [|done]. rewrite elem_of_app, list_elem_of_singleton. by right.
  - rewrite lookup_insert_ne by done. intros [[Hin Hn]|Hm]%IH; [|by right].
    left. split; [|done]. rewrite elem_of_app. by left.
Qed.

Lemma dom_register modules ms :
  dom (register modules ms) =
    dom modules ∪ list_to_set (module_name <$> ms).
Proof.
  induction ms as [|x ms IH] using rev_ind.
  - cbn. set_solver.
  - rewrite register_snoc, dom_insert_L, IH, fmap_app, list_to_set_app_L.
    cbn. set_solver.
Qed.

Lemma loadInternalModules_lookup name m :
  (name, m) ∈ internal_modules w → loadInternalModules w ∅ !! name = Some m.
Proof.
  unfold internal_modules, loadInternalModules.
  rewrite !elem_of_cons, elem_of_nil.
  intros [[= -> ->]|[[= -> ->]|[[= -> ->]|[[= -> ->]|[]]]]];
    by simplify_map_eq.
Qed.

Lemma dom_loadInternalModules :
  dom (loadInternalModules w ∅) =
    ({["echo"; "inventory"; "ping"; "status"]} : gset string).
Proof.
  unfold loadInternalModules. rewrite !dom_insert_L, dom_empty_L. set_solver.
Qed.

Lemma register_lookup modules ms name :
  register modules ms !! name =
    match last_declaring name ms with
    | Some e_m => Some e_m
    | None => modules !! name
    end.
Proof.
  unfold last_declaring.
  induction ms as [|x ms IH] using rev_ind; [done|].
  rewrite register_snoc, filter_app.
  destruct (decide (module_name x = name)) as [<-|Hne].
  - rewrite lookup_insert_eq, filter_cons_True by done.
    cbn [filter list_filter]. by rewrite last_snoc.
  - rewrite lookup_insert_ne, filter_cons_False by done.
    cbn [filter list_filter]. by rewrite app_nil_r.
Qed.

Lemma fs_is_directory_readable p s :
  s ≠ status_error → fs_is_directory w p s = ([], Ok (is_directory s)).
Proof. by destruct s. Qed.

Lemma constructed_readable f :
  readable f →
  constructed w f =
    if is_directory (status f) then None
    else match ExternalModule_new w (path f) with
         | Ok e_m => Some e_m
         | Raise _ => None
         end.
Proof. unfold readable, constructed. by destruct (status f). Qed.

(** One turn of the loop for an entry whose status can be read: the
    constructor is called if the entry is no directory; the module is stored
    under its name, or the failure is logged and the registry left as it
    was.  No exception leaves the turn. *)
Lemma load_entry_result f modules :
  readable f →
  (load_entry w f modules).2 =
    Ok (match constructed w f with
        | Some e_m => <[module_name e_m := e_m]> modules
        | None => modules
        end).
Proof.
  intros Hf. rewrite (constructed_readable f Hf). unfold load_entry.
  rewrite (fs_is_directory_readable _ _ Hf). run.
  destruct (is_directory (status f)); cbn [negb]; [done|]. run.
  destruct (ExternalModule_new w (path f)) as [e_m|e]; run; [done|].
  by repeat case_send.
Qed.

Lemma load_entry_trace f modules :
  readable f →
  (load_entry w f modules).1 =
    if is_directory (status f) then []
    else match ExternalModule_new w (path f) with
         | Ok _ => [EvNewExternalModule (path f)]
         | Raise e =>
             [EvNewExternalModule (path f);
              EvLog LOG_ERROR
                (if is_a (class_of e) module_error
                 then "Failed to load %1%; %2%"
                 else if is_a (class_of e) std_exception
                 then "Unexpected error when loading %1%; %2%"
                 else "Unexpected error when loading %1%")
                (arg_str (path f) ::
                 if is_a (class_of e) module_error
                    || is_a (class_of e) std_exception
                 then [arg_str (what e)] else [])]
         end.
Proof.
  intros Hf. unfold load_entry.
  rewrite (fs_is_directory_readable _ _ Hf). run.
  destruct (is_directory (status f)); cbn [negb]; [done|]. run.
  destruct (ExternalModule_new w (path f)) as [e_m|e]; run; [done|].
  by repeat case_send.
Qed.

(** A status that cannot be read: the exception leaves the turn before
    anything else happens. *)
Lemma load_entry_unreadable f modules :
  status f = status_error →
  load_entry w f modules = ([], Raise (filesystem_error w (path f))).
Proof. intros Hf. unfold load_entry. by rewrite Hf. Qed.

Lemma first_unreadable_None fs :
  first_unreadable fs = None ↔ Forall readable fs.
Proof.
  unfold first_unreadable, readable. induction fs as [|f fs IH].
  - split; [by constructor|done].
  - cbn [List.find]. rewrite Forall_cons. case_bool_decide as Hf.
    + split; [done|]. by intros [? _].
    + rewrite IH. tauto.
Qed.

(** The loop ends with the first status that cannot be read, or with the
    registry in which the constructed modules are stored. *)
Lemma load_entries_outcome fs modules :
  (load_entries w fs modules).2 =
    match first_unreadable fs with
    | Some f => Raise (filesystem_error w (path f))
    | None => Ok (register modules (loaded_modules w fs))
    end.
Proof.
  revert modules. induction fs as [|f fs IH]; intros modules; [done|].
  cbn [load_entries]. run. unfold first_unreadable. cbn [List.find].
  case_bool_decide as Hf.
  - by rewrite (load_entry_unreadable f modules Hf).
  - rewrite load_entry_result, IH by done.
    unfold loaded_modules. cbn [omap list_omap].
    by destruct (constructed w f).
Qed.

Lemma load_entries_result fs modules :
  Forall readable fs →
  (load_entries w fs modules).2 =
    Ok (register modules (loaded_modules w fs)).
Proof.
  intros Hfs%first_unreadable_None. by rewrite load_entries_outcome, Hfs.
Qed.

Lemma load_entries_constructions fs modules :
  Forall readable fs →
  constructions (load_entries w fs modules).1 = path <$> files fs.
Proof.
  revert modules. induction fs as [|f fs IH]; intros modules Hfs; [done|].
  apply Forall_cons in Hfs as [Hf Hfs].
  cbn [load_entries]. run. rewrite load_entry_result by done.
  unfold constructions in *. rewrite omap_app, IH, load_entry_trace by done.
  unfold files. cbn [List.filter].
  destruct (is_directory (status f)); cbn [negb]; [done|].
  by destruct (ExternalModule_new w (path f)).
Qed.

Lemma load_entries_failure_logged fs modules f e :
  Forall readable fs →
  f ∈ fs → is_directory (status f) = false →
  ExternalModule_new w (path f) = Raise e →
  ∃ fmt args,
    EvLog LOG_ERROR fmt (arg_str (path f) :: args)
      ∈ (load_entries w fs modules).1.
Proof.
  revert modules.
  induction fs as [|f' fs IH]; intros modules Hfs Hin Hdir Hnew;
    [by apply elem_of_nil in Hin|].
  apply Forall_cons in Hfs as [Hf Hfs].
  cbn [load_entries]. run. rewrite load_entry_result by done.
  apply elem_of_cons in Hin as [<-|Hin].
  - rewrite load_entry_trace, Hdir, Hnew by done. eexists _, _.
    rewrite elem_of_app. left. rewrite !elem_of_cons. right. by left.
  - edestruct IH as (fmt & args & H); [done..|].
    exists fmt, args. rewrite elem_of_app. right. exact H.
Qed.

Lemma loaded_modules_app fs1 fs2 :
  loaded_modules w (fs1 ++ fs2) =
    (loaded_modules w fs1 ++ loaded_modules w fs2)%list.
Proof. apply omap_app. Qed.

Lemma loadExternalModulesFrom_directory dir_path modules :
  is_directory (fs_status w dir_path) = true →
  (loadExternalModulesFrom w dir_path modules).2 =
    match (load_entries w (fs_directory w dir_path) modules).2 with
    | Ok modules' =>
        if fs_directory_fails w dir_path
        then Raise (filesystem_error w dir_path) else Ok modules'
    | Raise e => Raise e
    end ∧
  (loadExternalModulesFrom w dir_path modules).1 =
    EvLog LOG_INFO "Loading external modules from %1%" [arg_str dir_path]
    :: (load_entries w (fs_directory w dir_path) modules).1.
Proof.
  intros H. unfold loadExternalModulesFrom.
  rewrite fs_is_directory_readable by (by destruct (fs_status w dir_path)).
  run. rewrite H. run. cbn [app]. split.
  - destruct (load_entries _ _ _).2 as [modules'|e]; [|done].
    by destruct (fs_directory_fails w dir_path).
  - destruct (load_entries _ _ _).2 as [modules'|e];
      [|by rewrite app_nil_r].
    destruct (fs_directory_fails w dir_path); by rewrite app_nil_r.
Qed.

Lemma loadExternalModulesFrom_missing dir_path modules :
  fs_status w dir_path ≠ status_error →
  is_directory (fs_status w dir_path) = false →
  loadExternalModulesFrom w dir_path modules =
    ([EvLog LOG_INFO "Loading external modules from %1%" [arg_str dir_path];
      missing_directory_warning], Ok modules).
Proof.
  intros Hs H. unfold loadExternalModulesFrom.
  rewrite fs_is_directory_readable by done. by rewrite H.
Qed.

Lemma log_modules_result l : (log_modules w l).2 = Ok tt.
Proof.
  induction l as [|module l IH]; [done|]. cbn [log_modules].
  destruct (actions_text (actions module.2)). run. exact IH.
Qed.

Lemma logLoadedModules_result modules :
  (logLoadedModules w modules).2 = Ok tt.
Proof. apply log_modules_result. Qed.

(** How the scan of [dir_path] ends: with the first failure of a filesystem
    read, or with the registry in which the constructed modules are
    stored. *)
Lemma loadExternalModulesFrom_result dir_path modules :
  (loadExternalModulesFrom w dir_path modules).2 =
    match scan_failure w dir_path with
    | Some e => Raise e
    | None => Ok (register modules (scanned w dir_path))
    end.
Proof.
  unfold scan_failure, scanned.
  destruct (decide (fs_status w dir_path = status_error)) as [Hs|Hs].
  { unfold loadExternalModulesFrom. by rewrite Hs. }
  destruct (is_directory (fs_status w dir_path)) eqn:Hdir.
  - destruct (loadExternalModulesFrom_directory dir_path modules Hdir)
      as [-> _].
    rewrite load_entries_outcome.
    destruct (fs_status w dir_path); try done.
    destruct (first_unreadable _); [done|].
    by destruct (fs_directory_fails w dir_path).
  - rewrite loadExternalModulesFrom_missing by done.
    by destruct (fs_status w dir_path).
Qed.

Lemma scan_completes_no_failure dir_path :
  fs_status w dir_path ≠ status_error →
  (is_directory (fs_status w dir_path) = true → scan_completes w dir_path) →
  scan_failure w dir_path = None.
Proof.
  intros Hs Hc. unfold scan_failure.
  destruct (fs_status w dir_path); try done.
  destruct (Hc eq_refl) as [Hfs ->].
  by apply first_unreadable_None in Hfs as ->.
Qed.

Lemma no_failure_scan_completes dir_path :
  scan_failure w dir_path = None →
  fs_status w dir_path ≠ status_error ∧
  (is_directory (fs_status w dir_path) = true → scan_completes w dir_path).
Proof.
  unfold scan_failure, scan_completes.
  destruct (fs_status w dir_path); try done.
  destruct (first_unreadable _) eqn:Hfs; [done|].
  apply first_unreadable_None in Hfs.
  by destruct (fs_directory_fails w dir_path).
Qed.

Lemma Agent_new_Ok bin_path server_url ca crt key tr a :
  Agent_new w bin_path server_url ca crt key = (tr, Ok a) →
  ∃ dir_path,
    Connector_new w server_url AGENT_CLIENT_TYPE ca crt key =
      Ok (connector_ a) ∧
    getModulesDirPath w bin_path = Ok dir_path ∧
    scan_failure w dir_path = None ∧
    modules_ a = register (loadInternalModules w ∅) (scanned w dir_path) ∧
    tr = ((loadExternalModulesFrom w dir_path (loadInternalModules w ∅)).1
          ++ (logLoadedModules w (modules_ a)).1)%list.
Proof.
  intros H.
  pose proof (f_equal fst H) as H1. pose proof (f_equal snd H) as H2.
  clear H. cbn [fst snd] in H1, H2. revert H1 H2.
  unfold Agent_new. run.
  destruct (Connector_new w server_url AGENT_CLIENT_TYPE ca crt key)
    as [connector|e]; run; [|by case_send].
  destruct (getModulesDirPath w bin_path) as [dir_path|e]; run;
    [|by case_send].
  rewrite loadExternalModulesFrom_result.
  destruct (scan_failure w dir_path) as [e|] eqn:Hscan; run;
    [by case_send|].
  rewrite logLoadedModules_result. run.
  rewrite !app_nil_r. cbn [app].
  intros <- [= <-]. by exists dir_path.
Qed.

(** C6, as amended: when the status of every entry can be read and the
    iteration reaches the end of the directory, the scan calls the
    constructor of [ExternalModule] once for each entry that is no directory
    (for every regular file), in the order of the directory and for its own
    entries only; a constructor that fails leaves an error line in the log
    and the scan goes on; the scan returns, and the registry afterwards holds
    under each name the last constructed module that declares the name, or,
    when none does, what it held before (the internal modules, in the
    constructor of the agent). *)
Theorem external_loading_is_best_effort dir_path modules :
  is_directory (fs_status w dir_path) = true →
  scan_completes w dir_path →
  ∃ modules',
    (loadExternalModulesFrom w dir_path modules).2 = Ok modules' ∧
    constructions (loadExternalModulesFrom w dir_path modules).1 =
      path <$> files (fs_directory w dir_path) ∧
    (∀ f, f ∈ fs_directory w dir_path → status f = regular_file →
          path f ∈ constructions (loadExternalModulesFrom w dir_path modules).1) ∧
    (∀ f e, f ∈ fs_directory w dir_path →
            is_directory (status f) = false →
            ExternalModule_new w (path f) = Raise e →
            ∃ fmt args,
              EvLog LOG_ERROR fmt (arg_str (path f) :: args)
                ∈ (loadExternalModulesFrom w dir_path modules).1) ∧
    dom modules' =
      dom modules ∪
      list_to_set
        (module_name <$> loaded_modules w (fs_directory w dir_path)) ∧
    (∀ name,
       modules' !! name =
         match
           last_declaring name (loaded_modules w (fs_directory w dir_path))
         with
         | Some e_m => Some e_m
         | None => modules !! name
         end).
Proof.
  intros Hdir [Hfs Hend].
  destruct (loadExternalModulesFrom_directory dir_path modules Hdir)
    as [Hres Htr].
  exists (register modules (loaded_modules w (fs_directory w dir_path))).
  rewrite Hres, Htr, load_entries_result, Hend by done.
  assert (constructions
            (EvLog LOG_INFO "Loading external modules from %1%"
               [arg_str dir_path]
             :: (load_entries w (fs_directory w dir_path) modules).1) =
          path <$> files (fs_directory w dir_path)) as Hcons.
  { unfold constructions. cbn [omap list_omap construction_of].
    by apply load_entries_constructions. }
  split; [done|]. split; [exact Hcons|]. split; [|split; [|split]].
  - intros f Hin Hreg. rewrite Hcons. apply list_elem_of_fmap.
    exists f. split; [done|]. unfold files.
    apply list_elem_of_In, filter_In. split; [by apply list_elem_of_In|].
    by rewrite Hreg.
  - intros f e Hin Hnd Hnew.
    destruct (load_entries_failure_logged (fs_directory w dir_path) modules
                f e Hfs Hin Hnd Hnew) as (fmt & args & H).
    exists fmt, args. by apply elem_of_cons; right.
  - apply dom_register.
  - apply register_lookup.
Qed.

(** C7: when two entries of the modules directory yield modules of the
    same name and no later entry yields that name, the scan ends with the
    registry that maps the name to the module of the later entry, unless a
    filesystem read of the scan fails and its error leaves the scan; the turn
    of the loop that replaces the earlier module calls the constructor and
    logs nothing. *)
Theorem later_module_replaces_earlier
    dir_path modules fs1 f1 fs2 f2 fs3 m1 m2 :
  is_directory (fs_status w dir_path) = true →
  fs_directory w dir_path = (fs1 ++ f1 :: fs2 ++ f2 :: fs3)%list →
  constructed w f1 = Some m1 →
  constructed w f2 = Some m2 →
  module_name m1 = module_name m2 →
  (∀ m, m ∈ loaded_modules w fs3 → module_name m ≠ module_name m2) →
  ∃ modules',
    (loadExternalModulesFrom w dir_path modules).2 =
      match scan_failure w dir_path with
      | Some e => Raise e
      | None => Ok modules'
      end ∧
    modules' !! module_name m1 = Some m2 ∧
    ∀ earlier,
      load_entry w f2 earlier =
        ([EvNewExternalModule (path f2)],
         Ok (<[module_name m2 := m2]> earlier)).
Proof.
  intros Hdir Hlist H1 H2 Hname Hlater.
  exists (register modules (scanned w dir_path)).
  split; [apply loadExternalModulesFrom_result|].
  assert (readable f2) as Hf2.
  { unfold readable. intros Hs. unfold constructed in H2. by rewrite Hs in H2. }
  split.
  - unfold scanned. rewrite Hdir, Hlist, Hname.
    replace (fs1 ++ f1 :: fs2 ++ f2 :: fs3)%list
      with ((fs1 ++ f1 :: fs2) ++ f2 :: fs3)%list
      by (by rewrite <- app_assoc).
    rewrite loaded_modules_app. unfold loaded_modules at 2.
    cbn [omap list_omap]. rewrite H2.
    by apply register_last.
  - intros earlier. apply M_eq.
    + rewrite load_entry_trace by done.
      rewrite (constructed_readable f2 Hf2) in H2.
      destruct (is_directory (status f2)); [done|].
      by destruct (ExternalModule_new w (path f2)).
    + by rewrite load_entry_result, H2.
Qed.

(** C9, as amended: the registry of a constructed agent holds an entry for
    each of the names "echo", "inventory", "ping" and "status": the last
    module constructed from the modules directory that declares the name,
    which has replaced the internal module, or the internal module when no
    constructed module declares the name; when the modules directory is no
    directory, the warning is logged and the registry holds the four internal
    modules and nothing else. *)
Theorem constructed_agent_registry bin_path server_url ca crt key tr a :
  Agent_new w bin_path server_url ca crt key = (tr, Ok a) →
  ∃ dir_path,
    getModulesDirPath w bin_path = Ok dir_path ∧
    (∀ name m, (name, m) ∈ internal_modules w →
       name ∈ dom (modules_ a) ∧
       modules_ a !! name =
         match last_declaring name (scanned w dir_path) with
         | Some e_m => Some e_m
         | None => Some m
         end ∧
       ((is_directory (fs_status w dir_path) = true →
         ∀ x, x ∈ loaded_modules w (fs_directory w dir_path) →
              module_name x ≠ name) →
        modules_ a !! name = Some m)) ∧
    (is_directory (fs_status w dir_path) = false →
     missing_directory_warning ∈ tr ∧
     modules_ a = loadInternalModules w ∅ ∧
     dom (modules_ a) =
       ({["echo"; "inventory"; "ping"; "status"]} : gset string)).
Proof.
  intros (dir_path & _ & Hdir & Hscan & Hmods & Htr)%Agent_new_Ok.
  exists dir_path. split; [done|]. split.
  - intros name m Hin. rewrite Hmods. split; [|split].
    + rewrite dom_register, elem_of_union. left.
      apply elem_of_dom. eexists. by apply loadInternalModules_lookup.
    + rewrite register_lookup.
      by rewrite (loadInternalModules_lookup name m Hin).
    + intros Hfree. rewrite register_other.
      * by apply loadInternalModules_lookup.
      * unfold scanned. destruct (is_directory (fs_status w dir_path));
          [by apply Hfree|]. by intros x ?%elem_of_nil.
  - intros Hno. unfold scanned in Hmods. rewrite Hno in Hmods.
    cbn in Hmods.
    split; [|split; [done|by rewrite Hmods, dom_loadInternalModules]].
    apply no_failure_scan_completes in Hscan as [Hs _].
    rewrite Htr, loadExternalModulesFrom_missing by done.
    cbn [fst app]. rewrite !elem_of_cons. right. by left.
Qed.

End Loading.

(** ** Start-up *)

Section Startup.

Context (w : World).


End Startup.

(** ** The theorems at the concrete installation *)

(** The echo request, answered through a connector whose [send] times out:
    one response, and the callback returns. *)
Lemma callback_sends_exactly_one_response_witness :
  answered_once Demo.offline Demo.offline_agent Demo.echo_request
    "42" "cth://client"
    (["cth://client"], [("msg", JString "hi")],
     [[("debug_data", JString "broker: received")];
      [("debug_data", JString "broker: forwarded")]]).
Proof.
  assert (send_raises_connection_errors (connector_ Demo.offline_agent))
    as Hsend.
  { intros targets schema timeout d dbg e. cbn. intros [= <-]. reflexivity. }
  exact (callback_sends_exactly_one_response Demo.offline Demo.offline_agent
           Demo.echo_request "42" "cth://client" eq_refl eq_refl Hsend
           "echo" "echo" eq_refl eq_refl).
Defined.

(** Against C1 as stated: the request for the module [crasher] has a
    readable envelope and data that conform to the request schema, the
    connector delivers every response, and yet no response is sent. *)
Lemma accepted_request_without_response :
  get_string Demo.crash_world (envelope Demo.crasher_request) "sender" =
    Ok "cth://client" ∧
  conforms (getCncRequestSchema Demo.crash_world)
    (data Demo.crasher_request) = true ∧
  modules_ Demo.crash_agent !! "crasher" = Some Demo.crasher ∧
  List.length
    (responses (cncRequestCallback Demo.crash_world Demo.crash_agent
                  Demo.crasher_request).1) = 0%nat.
Proof. repeat split; vm_compute; reflexivity. Qed.

(** The exception of the module [crasher] is no request error: it leaves
    the callback. *)
Lemma callback_propagates_only_foreign_exceptions_witness :
  (cncRequestCallback Demo.crash_world Demo.crash_agent
     Demo.crasher_request).2 =
    Raise (Exn std_exception "bad_alloc") ∧
  responses (cncRequestCallback Demo.crash_world Demo.crash_agent
               Demo.crasher_request).1 = [] ∧
  ∀ e,
    (dispatch_request Demo.crash_world Demo.crash_agent
       Demo.crasher_request).2 = Raise e →
    is_a (class_of e) request_error = true →
    (cncRequestCallback Demo.crash_world Demo.crash_agent
       Demo.crasher_request).2 = Ok tt.
Proof.
  destruct (callback_propagates_only_foreign_exceptions Demo.crash_world
              Demo.crash_agent Demo.crasher_request "42" "cth://client")
    as (Hiff & Hconv & Hnone & Hhandler & _).
  - reflexivity.
  - reflexivity.
  - intros targets schema timeout d dbg e. cbn. discriminate.
  - split; [|split].
    + apply Hiff. split; [|reflexivity].
      apply (Hhandler "crasher" "run" Demo.crasher); reflexivity.
    + apply (Hnone (Exn std_exception "bad_alloc")); [|reflexivity].
      apply (Hhandler "crasher" "run" Demo.crasher); reflexivity.
    + intros e He Hreq. exact (proj1 (Hconv e He Hreq)).
Defined.

(** Against C2 as stated: the agent constructed from a modules directory
    with the module [crasher] receives a request for it; the handler's
    exception leaves the callback and no response is sent. *)
Lemma crashing_handler_escapes_callback :
  ∃ tr a tr',
    Agent_new Demo.crash_world Demo.bin_path Demo.server_url
      "ca.pem" "crt.pem" "key.pem" = (tr, Ok a) ∧
    cncRequestCallback Demo.crash_world a Demo.crasher_request =
      (tr', Raise (Exn std_exception "bad_alloc")) ∧
    responses tr' = [].
Proof.
  eexists _, _, _. split; [vm_compute; reflexivity|].
  split; vm_compute; reflexivity.
Qed.

(** A request without data section. *)
Lemma invalid_envelope_touches_no_module_witness :
  responses (cncRequestCallback Demo.bare Demo.bare_agent
               Demo.empty_request).1 =
    [(["cth://client"], [("error", JString "no data")], [])] ∧
  Forall (λ ev, is_lookup ev = false ∧ is_perform ev = false)
    (cncRequestCallback Demo.bare Demo.bare_agent Demo.empty_request).1.
Proof.
  destruct (invalid_envelope_touches_no_module Demo.bare Demo.bare_agent
              Demo.empty_request "43" "cth://client")
    as (msg & _ & Hd & Hresp & Hno).
  - reflexivity.
  - reflexivity.
  - left. reflexivity.
  - injection Hd as <-. split; [exact Hresp|exact Hno].
Defined.

(** The request [{module: "nope", action: "x"}] is answered with
    [{error: "unknown module: nope"}]. *)
Lemma unknown_module_error_response_witness :
  responses (cncRequestCallback Demo.bare Demo.bare_agent
               Demo.nope_request).1 =
    [(["cth://client"], [("error", JString "unknown module: nope")], [])] ∧
  Forall (λ ev, is_perform ev = false)
    (cncRequestCallback Demo.bare Demo.bare_agent Demo.nope_request).1.
Proof.
  apply (unknown_module_error_response Demo.bare Demo.bare_agent
           Demo.nope_request "42" "cth://client" "nope" "x"); reflexivity.
Defined.

(** The request for the module echo with the empty action name conforms to
    the schema and its action name reaches the handler of echo. *)
Lemma conforming_request_reaches_lookup_witness :
  EvPerformRequest "echo" EmptyString
    ∈ (cncRequestCallback Demo.bare Demo.bare_agent
         Demo.empty_action_request).1.
Proof.
  destruct (conforming_request_reaches_lookup Demo.bare Demo.bare_agent
              Demo.empty_action_request "42" "cth://client")
    as (name & action & Hm & Ha & _ & Hcall).
  - reflexivity.
  - reflexivity.
  - reflexivity.
  - reflexivity.
  - reflexivity.
  - injection Hm as <-. injection Ha as <-. exact Hcall.
Defined.

(** Against C5 as stated: the request for the module echo has an empty
    action name, yet the schema accepts its data and the callback calls a
    handler. *)
Lemma empty_action_reaches_module :
  conforms (getCncRequestSchema Demo.bare)
    (data Demo.empty_action_request) = true ∧
  find_member "action" (data Demo.empty_action_request) =
    Some (JString EmptyString) ∧
  existsb is_perform
    (cncRequestCallback Demo.bare Demo.bare_agent
       Demo.empty_action_request).1 = true.
Proof. repeat split; vm_compute; reflexivity. Qed.

(** A directory with a subdirectory, a module, a file that is no module and
    a second module: three constructor calls, and the registry gains the
    name "reverse", for the later of the two modules. *)
Lemma external_loading_is_best_effort_witness :
  ∃ modules',
    (loadExternalModulesFrom Demo.mixed_world Demo.modules_dir
       (loadInternalModules Demo.mixed_world ∅)).2 = Ok modules' ∧
    constructions
      (loadExternalModulesFrom Demo.mixed_world Demo.modules_dir
         (loadInternalModules Demo.mixed_world ∅)).1 =
      [path (Demo.file "reverse_a"); path (Demo.file "README");
       path (Demo.file "reverse_b")] ∧
    dom modules' =
      dom (loadInternalModules Demo.mixed_world ∅) ∪ {["reverse"]} ∧
    modules' !! "reverse" = Some Demo.reverse_v2 ∧
    modules' !! "echo" = Some Demo.echo_module.
Proof.
  destruct (external_loading_is_best_effort Demo.mixed_world Demo.modules_dir
              (loadInternalModules Demo.mixed_world ∅))
    as (modules' & Hres & Hcons & _ & _ & Hdom & Hlook).
  - reflexivity.
  - split; [|reflexivity].
    repeat constructor; intros H; discriminate H.
  - exists modules'. split; [exact Hres|]. split; [exact Hcons|].
    split; [rewrite Hdom; reflexivity|].
    split; rewrite Hlook; reflexivity.
Defined.

(** Against C6 as stated: the file reverse_a of the mixed directory is
    loaded successfully, and the registry after the scan does not hold its
    module: under the name it declares is the module of reverse_b. *)
Lemma loaded_module_missing_from_registry :
  constructed Demo.mixed_world (Demo.file "reverse_a") =
    Some Demo.reverse_v1 ∧
  (loadExternalModulesFrom Demo.mixed_world Demo.modules_dir
     (loadInternalModules Demo.mixed_world ∅)).2 =
    Ok (<["reverse" := Demo.reverse_v2]>
          (loadInternalModules Demo.mixed_world ∅)) ∧
  <["reverse" := Demo.reverse_v2]> (loadInternalModules Demo.mixed_world ∅)
    !! module_name Demo.reverse_v1 ≠ Some Demo.reverse_v1.
Proof.
  split; [reflexivity|]. split; [vm_compute; reflexivity|].
  intros H. rewrite lookup_insert_eq in H. injection H as H.
  apply (f_equal (λ handler, handler "string" Demo.echo_request)) in H.
  discriminate H.
Qed.

(** Of the two files that declare the name "reverse", the later one is the
    module the registry holds. *)
Lemma later_module_replaces_earlier_witness :
  ∃ modules',
    (loadExternalModulesFrom Demo.mixed_world Demo.modules_dir
       (loadInternalModules Demo.mixed_world ∅)).2 = Ok modules' ∧
    modules' !! "reverse" = Some Demo.reverse_v2.
Proof.
  destruct (later_module_replaces_earlier Demo.mixed_world Demo.modules_dir
              (loadInternalModules Demo.mixed_world ∅)
              [Demo.subdirectory "lib"] (Demo.file "reverse_a")
              [Demo.file "README"] (Demo.file "reverse_b") []
              Demo.reverse_v1 Demo.reverse_v2)
    as (modules' & Hres & Hlook & _).
  - reflexivity.
  - reflexivity.
  - reflexivity.
  - reflexivity.
  - reflexivity.
  - intros m Hm. vm_compute in Hm. by apply elem_of_nil in Hm.
  - exists modules'. split; [exact Hres|exact Hlook].
Defined.


(** In the installation whose modules directory holds a file that declares
    the name "echo", that module has replaced the internal one, and the
    other internal modules are in place. *)
Lemma constructed_agent_registry_witness :
  modules_ Demo.impostor_agent !! "echo" = Some Demo.impostor ∧
  modules_ Demo.impostor_agent !! "ping" =
    Some (Modules_Ping Demo.impostor_world).
Proof.
  destruct (constructed_agent_registry Demo.impostor_world Demo.bin_path
              Demo.server_url "ca.pem" "crt.pem" "key.pem"
              (Agent_new Demo.impostor_world Demo.bin_path Demo.server_url
                 "ca.pem" "crt.pem" "key.pem").1
              Demo.impostor_agent)
    as (dir_path & Hdir & Hint & _).
  - apply M_eq; [reflexivity|]. vm_compute. reflexivity.
  - injection Hdir as <-. split.
    + destruct (Hint "echo" (Modules_Echo Demo.impostor_world))
        as (_ & Hecho & _).
      * apply elem_of_cons. left. reflexivity.
      * rewrite Hecho. reflexivity.
    + destruct (Hint "ping" (Modules_Ping Demo.impostor_world))
        as (_ & Hping & _).
      * apply elem_of_cons. right. apply elem_of_cons. right.
        apply elem_of_cons. left. reflexivity.
      * rewrite Hping. reflexivity.
Defined.

(** Against C9 as stated: a file of the modules directory declares the name
    "echo"; the registry of the constructed agent holds that module under
    "echo", not the internal one. *)
Lemma external_module_replaces_internal_echo :
  ∃ tr a,
    Agent_new Demo.impostor_world Demo.bin_path Demo.server_url
      "ca.pem" "crt.pem" "key.pem" = (tr, Ok a) ∧
    modules_ a !! "echo" = Some Demo.impostor ∧
    modules_ a !! "echo" ≠ Some (Modules_Echo Demo.impostor_world).
Proof.
  eexists _, _. split; [vm_compute; reflexivity|].
  split; [vm_compute; reflexivity|].
  intros H. vm_compute in H. discriminate H.
Qed.

(** The two debug strings of the echo request come back as two entries. *)
Lemma debug_entries_forwarded_on_success_only_witness :
  ∃ rest,
    responses (cncRequestCallback Demo.bare Demo.bare_agent
                 Demo.echo_request).1 =
      (["cth://client"], [("msg", JString "hi")],
       [[("debug_data", JString "broker: received")];
        [("debug_data", JString "broker: forwarded")]]) :: rest ∧
    Forall (λ resp, ∃ msg, resp = (["cth://client"], error_payload msg, []))
      rest.
Proof.
  apply (debug_entries_forwarded_on_success_only Demo.bare Demo.bare_agent
           Demo.echo_request "42" "cth://client"); reflexivity.
Defined.

(** ** Start-up, continued *)

Section StartupMore.

Context (w : World).

(** X1: the constructor of the agent raises exactly when the constructor
    of the connector raises, when the computation of the modules directory
    raises, or when a filesystem read of the scan fails; a configuration
    error leaves it as a fatal error, any other exception as it is.
    Otherwise it yields the agent whose registry is the internal modules with
    the modules constructed from the directory stored over them: no exception
    of a constructor of [ExternalModule] makes the construction fail. *)
Theorem agent_construction_outcome bin_path server_url ca crt key :
  (Agent_new w bin_path server_url ca crt key).2 =
    match Connector_new w server_url AGENT_CLIENT_TYPE ca crt key with
    | Raise e => Raise (rethrown e)
    | Ok connector =>
        match getModulesDirPath w bin_path with
        | Raise e => Raise (rethrown e)
        | Ok dir_path =>
            match scan_failure w dir_path with
            | Some e => Raise e
            | None =>
                Ok {| connector_ := connector;
                      modules_ :=
                        register (loadInternalModules w ∅)
                          (scanned w dir_path) |}
            end
        end
    end.
Proof.
  unfold Agent_new, rethrown. run.
  destruct (Connector_new w server_url AGENT_CLIENT_TYPE ca crt key)
    as [connector|e]; run; [|by case_send].
  destruct (getModulesDirPath w bin_path) as [dir_path|e]; run;
    [|by case_send].
  rewrite loadExternalModulesFrom_result.
  destruct (scan_failure w dir_path) as [e|] eqn:Hscan; run.
  - assert (class_of e = std_exception) as Hc.
    { revert Hscan. unfold scan_failure, filesystem_error.
      destruct (fs_status w dir_path); try done; [by intros [= <-]|].
      destruct (first_unreadable _); [by intros [= <-]|].
      destruct (fs_directory_fails w dir_path); [by intros [= <-]|done]. }
    by rewrite Hc.
  - by rewrite logLoadedModules_result.
Qed.

(** X2: when [connect] raises an exception that is no configuration error,
    [start] has registered the callback and tried to connect; a fatal
    connection error is logged and leaves [start] as the fatal error "failed
    to connect", any other exception leaves [start] as it is and unlogged.
    [monitorConnection] is not entered. *)
Theorem start_connect_failure a e :
  connect (connector_ a) = Raise e →
  is_a (class_of e) connection_config_error = false →
  start w a =
    if is_a (class_of e) connection_fatal_error then
      ([ EvRegisterMessageCallback (getCncRequestSchema w); EvConnect;
         EvLog LOG_ERROR "Failed to connect: %1%" [arg_str (what e)] ],
       Raise (Exn fatal_error "failed to connect"))
    else
      ([EvRegisterMessageCallback (getCncRequestSchema w); EvConnect],
       Raise e).
Proof.
  intros Hc Hcfg. unfold start.
  destruct (is_a (class_of e) connection_fatal_error) eqn:Hf;
    apply M_eq; run; rewrite Hc; run; rewrite Hcfg, Hf; by run.
Qed.




End StartupMore.

(** ** Loading the modules, continued *)

Section LoadingMore.

Context (w : World).

Implicit Types (f : directory_entry) (fs : list directory_entry).
Implicit Types (modules : gmap string Module).

(** X6: a constructor of [ExternalModule] that raises, for an entry that
    is no directory, leaves the registry as it was and no exception leaves
    the turn of the loop; the error line names the path, and tells a module
    error ("Failed to load") from any other exception ("Unexpected error"),
    with the message of the exception unless it is no [std::exception].  The
    constructor is not reached when the status of the entry cannot be read:
    that [filesystem_error] leaves the loop. *)
Theorem load_failure_is_logged_by_class f modules e :
  is_directory (status f) = false →
  ExternalModule_new w (path f) = Raise e →
  load_entry w f modules =
    if decide (status f = status_error)
    then ([], Raise (filesystem_error w (path f)))
    else ([EvNewExternalModule (path f); failure_line (path f) e], Ok modules).
Proof.
  intros Hdir Hnew.
  destruct (decide (status f = status_error)) as [Hf|Hf];
    [by apply load_entry_unreadable|].
  apply M_eq.
  - rewrite load_entry_trace, Hdir, Hnew by done. unfold failure_line.
    by repeat case_send.
  - rewrite load_entry_result, constructed_readable by done.
    by rewrite Hdir, Hnew.
Qed.

Lemma load_entries_accounting fs modules :
  Forall readable fs →
  (List.length (List.filter is_error_log (load_entries w fs modules).1) +
   List.length (loaded_modules w fs) = List.length (files fs))%nat.
Proof.
  revert modules. induction fs as [|f fs IH]; intros modules Hfs; [done|].
  apply Forall_cons in Hfs as [Hf Hfs].
  cbn [load_entries]. run. rewrite load_entry_result by done.
  rewrite List.filter_app, length_app, load_entry_trace by done.
  unfold loaded_modules, files in *. cbn [omap list_omap List.filter].
  specialize (IH (match constructed w f with
                  | Some e_m => <[module_name e_m := e_m]> modules
                  | None => modules
                  end) Hfs).
  rewrite (constructed_readable w f Hf) at 2.
  destruct (is_directory (status f)); cbn [negb]; [exact IH|].
  destruct (ExternalModule_new w (path f)) as [e_m|e];
    cbn [List.filter is_error_log List.length]; lia.
Qed.

(** X7: in the scan of a directory in which the status of every entry can
    be read, every entry that is no directory ends in exactly one of two
    ways: either its module is stored or one error line is written. *)
Theorem every_file_is_loaded_or_logged dir_path modules :
  is_directory (fs_status w dir_path) = true →
  Forall readable (fs_directory w dir_path) →
  (List.length
     (List.filter is_error_log
        (loadExternalModulesFrom w dir_path modules).1) +
   List.length (loaded_modules w (fs_directory w dir_path)) =
   List.length (files (fs_directory w dir_path)))%nat.
Proof.
  intros Hdir Hfs.
  destruct (loadExternalModulesFrom_directory w dir_path modules Hdir)
    as [_ ->].
  cbn [List.filter is_error_log]. by apply load_entries_accounting.
Qed.

(** X8: when no filesystem read of the scan fails, the scan returns and
    leaves an entry of the registry as it was unless a module it constructs
    declares the name of that entry; names that were absent stay absent. *)
Theorem scan_preserves_other_entries dir_path modules name :
  fs_status w dir_path ≠ status_error →
  (is_directory (fs_status w dir_path) = true → scan_completes w dir_path) →
  (is_directory (fs_status w dir_path) = true →
   ∀ e_m, e_m ∈ loaded_modules w (fs_directory w dir_path) →
          module_name e_m ≠ name) →
  ∃ modules',
    (loadExternalModulesFrom w dir_path modules).2 = Ok modules' ∧
    modules' !! name = modules !! name.
Proof.
  intros Hs Hc Hfree. eexists. split.
  - rewrite loadExternalModulesFrom_result.
    by rewrite scan_completes_no_failure.
  - apply register_other. unfold scanned.
    destruct (is_directory (fs_status w dir_path));
      [by apply Hfree|by intros x ?%elem_of_nil].
Qed.

Lemma load_entries_unreadable fs1 f fs2 modules :
  Forall readable fs1 → status f = status_error →
  load_entries w (fs1 ++ f :: fs2) modules =
    ((load_entries w fs1 modules).1, Raise (filesystem_error w (path f))).
Proof.
  revert modules. induction fs1 as [|f1 fs1 IH]; intros modules Hfs Hf.
  - cbn [app load_entries]. by rewrite (load_entry_unreadable w f modules Hf).
  - apply Forall_cons in Hfs as [Hf1 Hfs].
    cbn [app load_entries]. apply M_eq; run;
      rewrite load_entry_result by done; by rewrite IH.
Qed.

(** X20: the status of an entry is read outside the [try] block: when it
    cannot be read, the [filesystem_error] leaves the scan; the entries
    before it have been handled and the constructor is called for no entry
    after it. *)
Theorem unreadable_status_aborts_scan dir_path modules fs1 f fs2 :
  is_directory (fs_status w dir_path) = true →
  fs_directory w dir_path = (fs1 ++ f :: fs2)%list →
  Forall readable fs1 →
  status f = status_error →
  (loadExternalModulesFrom w dir_path modules).2 =
    Raise (filesystem_error w (path f)) ∧
  constructions (loadExternalModulesFrom w dir_path modules).1 =
    path <$> files fs1.
Proof.
  intros Hdir Hlist Hfs Hf.
  destruct (loadExternalModulesFrom_directory w dir_path modules Hdir)
    as [-> ->].
  rewrite Hlist, (load_entries_unreadable fs1 f fs2 modules Hfs Hf).
  split; [done|]. cbn [fst].
  unfold constructions. cbn [omap list_omap construction_of].
  by apply load_entries_constructions.
Qed.

End LoadingMore.

(** ** The registry and its log, continued *)

Section RegistryMore.

Context (w : World).

Implicit Types (modules : gmap string Module).

(** X17: [loadInternalModules] stores the four internal modules under their
    names whatever the registry held under them, leaves every other entry as
    it was, and doing it twice is doing it once. *)
Theorem internal_modules_override modules :
  (∀ name m, (name, m) ∈ internal_modules w →
             loadInternalModules w modules !! name = Some m) ∧
  (∀ name, name ∉ ["echo"; "inventory"; "ping"; "status"] →
           loadInternalModules w modules !! name = modules !! name) ∧
  loadInternalModules w (loadInternalModules w modules) =
    loadInternalModules w modules.
Proof.
  unfold loadInternalModules, internal_modules. split; [|split].
  - intros name m. rewrite !elem_of_cons, elem_of_nil.
    intros [[= -> ->]|[[= -> ->]|[[= -> ->]|[[= -> ->]|[]]]]];
      by simplify_map_eq.
  - intros name. rewrite !not_elem_of_cons. intros (? & ? & ? & ? & _).
    by rewrite !lookup_insert_ne.
  - apply map_eq. intros name.
    destruct (decide (name = "status")) as [->|?]; [by simplify_map_eq|].
    destruct (decide (name = "ping")) as [->|?]; [by simplify_map_eq|].
    destruct (decide (name = "inventory")) as [->|?]; [by simplify_map_eq|].
    destruct (decide (name = "echo")) as [->|?]; [by simplify_map_eq|].
    by rewrite !lookup_insert_ne by done.
Qed.

Lemma string_app_assoc (s1 s2 s3 : string) :
  (s1 +:+ s2) +:+ s3 = s1 +:+ s2 +:+ s3.
Proof.
  induction s1 as [|c s1 IH]; [done|].
  change (String c ((s1 +:+ s2) +:+ s3) = String c (s1 +:+ s2 +:+ s3)).
  by f_equal.
Qed.

Lemma string_app_empty_r (s : string) : s +:+ EmptyString = s.
Proof.
  induction s as [|c s IH]; [done|].
  change (String c (s +:+ EmptyString) = String c s). by f_equal.
Qed.

Lemma string_app_not_empty (s1 s2 : string) :
  s1 ≠ EmptyString → s1 +:+ s2 ≠ EmptyString.
Proof. by destruct s1. Qed.

(** The loop of [logLoadedModules] once [actions_list] is not empty. *)
Lemma actions_text_rest acts txt actions_list :
  actions_list ≠ EmptyString →
  fold_left
    (λ (st : string * string) (action : string),
       let st' :=
         if decide (st.2 = EmptyString) then ("action", st.2 +:+ ": ")
         else (st.1, st.2 +:+ ", ") in
       (st'.1, st'.2 +:+ action))
    acts (txt, actions_list) =
  (txt,
   actions_list +:+ fold_right (λ action r, ", " +:+ action +:+ r)
                      EmptyString acts).
Proof.
  revert actions_list. induction acts as [|action acts IH];
    intros actions_list Hne.
  - cbn [fold_left fold_right]. by rewrite string_app_empty_r.
  - cbn [fold_left fold_right fst snd].
    destruct (decide (actions_list = EmptyString)) as [?|_]; [done|].
    cbn [fst snd]. rewrite IH.
    + by rewrite !string_app_assoc.
    + by do 2 apply string_app_not_empty.
Qed.

Lemma concat_cons_fold (action : string) (acts : list string) :
  String.concat ", " (action :: acts) =
    action +:+ fold_right (λ x r, ", " +:+ x +:+ r) EmptyString acts.
Proof.
  revert action. induction acts as [|x acts IH]; intros action.
  - cbn [String.concat fold_right]. by rewrite string_app_empty_r.
  - change (String.concat ", " (action :: x :: acts))
      with (action +:+ ", " +:+ String.concat ", " (x :: acts)).
    by rewrite IH.
Qed.

(** X10: for a module without actions the log line says "found no action"
    and lists nothing; otherwise it says "action" and lists the names of the
    actions after ": ", separated by ", ". *)
Theorem actions_text_lists_names (acts : list string) :
  actions_text acts =
    match acts with
    | [] => ("found no action", EmptyString)
    | _ :: _ => ("action", ": " +:+ String.concat ", " acts)
    end.
Proof.
  destruct acts as [|action acts]; [done|].
  unfold actions_text. cbn [fold_left fst snd].
  destruct (decide (EmptyString = EmptyString)) as [_|?]; [|done].
  cbn [fst snd]. rewrite actions_text_rest by done.
  by rewrite concat_cons_fold, !string_app_assoc.
Qed.

Lemma key_le_total : Total key_le.
Proof.
  intros x y. unfold key_le.
  destruct (String.leb_total x.1 y.1) as [->| ->]; [by left|by right].
Qed.

Lemma log_modules_lines l :
  log_modules w l = (loaded_line w <$> l, Ok tt).
Proof.
  induction l as [|module l IH]; [done|].
  cbn [log_modules fmap list_fmap]. unfold loaded_line at 1.
  destruct (actions_text (actions module.2)) as [txt actions_list].
  apply M_eq; run; by rewrite IH.
Qed.

(** X9: [logLoadedModules] writes one line for each entry of the registry,
    in the order of the names, and nothing else; no exception leaves it. *)
Theorem loaded_modules_are_logged_in_key_order modules :
  ∃ l,
    l ≡ₚ map_to_list modules ∧
    Sorted key_le l ∧
    List.length l = size modules ∧
    logLoadedModules w modules = (loaded_line w <$> l, Ok tt).
Proof.
  exists (in_key_order modules). unfold in_key_order.
  split; [apply merge_sort_Permutation|].
  split; [apply (Sorted_merge_sort key_le (Total0 := key_le_total))|].
  split; [by rewrite merge_sort_Permutation, length_map_to_list|].
  apply log_modules_lines.
Qed.

End RegistryMore.

(** ** The request callback, continued *)

Section DispatchMore.

Context (w : World).

Implicit Types (a : Agent) (pc : ParsedChunks) (e : exn).

Lemma unreadable_envelope_leaves_callback_aux a pc e :
  get_string w (envelope pc) "id" = Raise e ∨
  (∃ id, get_string w (envelope pc) "id" = Ok id ∧
         get_string w (envelope pc) "sender" = Raise e) →
  cncRequestCallback w a pc = ([], Raise e).
Proof.
  intros [Hid|(id & Hid & Hs)]; unfold cncRequestCallback; rewrite Hid;
    [done|]. by rewrite Hs.
Qed.

(** X11: the identifier and the sender are read before the [try] block:
    when reading one of them raises, that exception leaves the callback,
    whatever its class, and nothing has been logged, looked up or sent. *)
Theorem unreadable_envelope_leaves_callback a pc e :
  get_string w (envelope pc) "id" = Raise e ∨
  (∃ id, get_string w (envelope pc) "id" = Ok id ∧
         get_string w (envelope pc) "sender" = Raise e) →
  cncRequestCallback w a pc = ([], Raise e).
Proof.
  intros [Hid|(id & Hid & Hs)]; unfold cncRequestCallback; rewrite Hid;
    cbn [lift bind]; [done|]. by rewrite Hs.
Qed.

(** The dispatch queries the registry with [find], then with [at] when
    [find] found the name, and calls the handler after both. *)
Lemma dispatch_trace_shape a pc :
  (dispatch_request w a pc).1 = [] ∨
  (∃ name, (dispatch_request w a pc).1 = [EvFind name]) ∨
  (∃ name action,
     (dispatch_request w a pc).1 =
       [EvFind name; EvAt name; EvPerformRequest name action]).
Proof.
  unfold dispatch_request, modules_at. run.
  destruct (has_data pc); cbn [negb]; run; [|by left].
  destruct (decide _); run; [by left|].
  destruct (get_string w (data pc) "module") as [name|]; run; [|by left].
  destruct (get_string w (data pc) "action") as [action|]; run; [|by left].
  destruct (modules_ a !! name); run; cbn [app]; eauto.
Qed.

Lemma callback_touch_events a pc id sender :
  get_string w (envelope pc) "id" = Ok id →
  get_string w (envelope pc) "sender" = Ok sender →
  List.filter (λ ev, is_lookup ev || is_perform ev)
    (cncRequestCallback w a pc).1 =
  List.filter (λ ev, is_lookup ev || is_perform ev)
    (dispatch_request w a pc).1.
Proof.
  intros Hid Hs. unfold cncRequestCallback, connector_send.
  run. rewrite Hid. run. rewrite Hs. run.
  rewrite !List.filter_app.
  destruct (dispatch_request w a pc).2 as [d|e]; run; repeat case_send;
    cbn [List.filter is_lookup is_perform orb app];
    by rewrite ?app_nil_r.
Qed.

(** X19: for one message the callback queries the registry with [find] at
    most once, then with [at] for the same name and only when it goes on to
    the handler, and it calls at most one handler, of that name, after both
    queries: the registry events and handler calls of its trace are none, or
    one [find], or [find], [at] and the call, in this order. *)
Theorem at_most_one_handler_call a pc :
  let touched :=
    List.filter (λ ev, is_lookup ev || is_perform ev)
      (cncRequestCallback w a pc).1 in
  (touched = [] ∨
   (∃ name, touched = [EvFind name]) ∨
   (∃ name action,
      touched = [EvFind name; EvAt name; EvPerformRequest name action])) ∧
  (List.length (List.filter is_perform (cncRequestCallback w a pc).1) ≤ 1)%nat ∧
  (List.length (List.filter is_lookup (cncRequestCallback w a pc).1) ≤ 2)%nat ∧
  (2 * List.length (List.filter is_perform (cncRequestCallback w a pc).1) ≤
   List.length (List.filter is_lookup (cncRequestCallback w a pc).1))%nat.
Proof.
  cbv zeta.
  destruct (get_string w (envelope pc) "id") as [id|e] eqn:Hid;
    [|rewrite (unreadable_envelope_leaves_callback_aux a pc e);
      [cbn; split; [by left|lia]|by left]].
  destruct (get_string w (envelope pc) "sender") as [sender|e] eqn:Hs;
    [|rewrite (unreadable_envelope_leaves_callback_aux a pc e);
      [cbn; split; [by left|lia]|right; eauto]].
  assert (∀ tr, List.filter is_perform tr =
                List.filter is_perform
                  (List.filter (λ ev, is_lookup ev || is_perform ev) tr))
    as Hp.
  { induction tr as [|[] tr IH]; cbn; by rewrite <- ?IH. }
  assert (∀ tr, List.filter is_lookup tr =
                List.filter is_lookup
                  (List.filter (λ ev, is_lookup ev || is_perform ev) tr))
    as Hl.
  { induction tr as [|[] tr IH]; cbn; by rewrite <- ?IH. }
  rewrite Hp, Hl, (callback_touch_events a pc id sender Hid Hs).
  destruct (dispatch_trace_shape a pc)
    as [->|[(name & ->)|(name & action & ->)]]; cbn; (split; [|lia]); eauto.
Qed.

End DispatchMore.

Section DispatchSends.

Context (w : World).

Implicit Types (a : Agent) (pc : ParsedChunks) (e : exn).

(** X12: every [send] of the callback goes to the sender of the message
    alone, with the response schema and the default timeout of ten
    seconds. *)
Theorem every_send_answers_the_sender
    a pc id sender targets schema timeout d dbg :
  get_string w (envelope pc) "id" = Ok id →
  get_string w (envelope pc) "sender" = Ok sender →
  EvSend targets schema timeout d dbg ∈ (cncRequestCallback w a pc).1 →
  targets = [sender] ∧ schema = CTHUN_RESPONSE_SCHEMA_NAME w ∧ timeout = 10.
Proof.
  intros Hid Hs.
  assert (EvSend targets schema timeout d dbg ∈ (dispatch_request w a pc).1
          → False) as Hno.
  { intros [[? ?]|[[? ?]|(? & ? & ?)]]%dispatch_trace; discriminate. }
  revert Hno. unfold cncRequestCallback, connector_send.
  run. rewrite Hid. run. rewrite Hs. run.
  destruct (dispatch_request w a pc).2 as [d'|e]; run; repeat case_send;
    rewrite ?elem_of_app, ?elem_of_cons, ?elem_of_nil;
    intros Hno Hin; decompose [or] Hin; try done; try discriminate;
    by simplify_eq.
Qed.

(** X13: the callback calls [send] at most twice for a message, and at
    most once when the connector raises connection errors only. *)
Theorem at_most_two_sends a pc :
  (List.length (responses (cncRequestCallback w a pc).1) ≤ 2)%nat ∧
  (send_raises_connection_errors (connector_ a) →
   (List.length (responses (cncRequestCallback w a pc).1) ≤ 1)%nat).
Proof.
  destruct (get_string w (envelope pc) "id") as [id|e] eqn:Hid.
  2: { rewrite (unreadable_envelope_leaves_callback_aux w a pc e)
         by (by left). cbn. split; [lia|intros _; lia]. }
  destruct (get_string w (envelope pc) "sender") as [sender|e] eqn:Hs.
  2: { rewrite (unreadable_envelope_leaves_callback_aux w a pc e)
         by (right; eauto). cbn. split; [lia|intros _; lia]. }
  pose proof (callback_responses w a pc id sender Hid Hs) as Hresp.
  revert Hresp. destruct (dispatch_request w a pc).2 as [d|e]; intros Hresp.
  - destruct Hresp as (rest & -> & [->|(e' & -> & Hsend & Hne)]);
      (split; [cbn; lia|]); [intros _; cbn; lia|].
    intros Hc. apply Hc in Hsend. congruence.
  - rewrite Hresp. destruct (is_a _ _); cbn; split; (lia || (intros _; lia)).
Qed.

(** X14: a request for a module of the registry whose handler returns a
    payload, answered through a [send] that succeeds: the callback logs the
    message, queries the registry with [find] and with [at], calls the
    handler once with the action name, sends the payload with the wrapped
    debug data and returns. *)
Theorem successful_request_trace a pc id sender name action module_ptr d :
  get_string w (envelope pc) "id" = Ok id →
  get_string w (envelope pc) "sender" = Ok sender →
  has_data pc = true → data_type pc = Json →
  get_string w (data pc) "module" = Ok name →
  get_string w (data pc) "action" = Ok action →
  modules_ a !! name = Some module_ptr →
  performRequest module_ptr action pc = Ok d →
  send (connector_ a) [sender] (CTHUN_RESPONSE_SCHEMA_NAME w)
    DEFAULT_MSG_TIMEOUT_SEC d (wrap_debug pc) = Ok tt →
  cncRequestCallback w a pc =
    ((preamble id sender pc ++
      [ EvFind name; EvAt name; EvPerformRequest name action;
        EvSend [sender] (CTHUN_RESPONSE_SCHEMA_NAME w)
          DEFAULT_MSG_TIMEOUT_SEC d (wrap_debug pc) ])%list,
     Ok tt).
Proof.
  intros Hid Hs Hhas Hty Hm Ha Hl Hp Hsend.
  pose proof (dispatch_known_module w a pc name action module_ptr
                Hhas Hty Hm Ha Hl) as Hd.
  rewrite Hp in Hd.
  unfold cncRequestCallback, connector_send.
  apply M_eq; run; rewrite Hid; run; rewrite Hs; run; rewrite Hd; run;
    rewrite Hsend; by run.
Qed.

(** X15: when the handler of the requested module raises a request error,
    an unknown action for instance, the registry has been queried with [find]
    and [at], the handler has been called once, and the one response of the
    callback is the error response with the message of that exception. *)
Theorem handler_request_error_is_answered
    a pc id sender name action module_ptr e :
  get_string w (envelope pc) "id" = Ok id →
  get_string w (envelope pc) "sender" = Ok sender →
  has_data pc = true → data_type pc = Json →
  get_string w (data pc) "module" = Ok name →
  get_string w (data pc) "action" = Ok action →
  modules_ a !! name = Some module_ptr →
  performRequest module_ptr action pc = Raise e →
  is_a (class_of e) request_error = true →
  responses (cncRequestCallback w a pc).1 =
    [([sender], error_payload (what e), [])] ∧
  List.filter (λ ev, is_lookup ev || is_perform ev)
    (cncRequestCallback w a pc).1 =
    [EvFind name; EvAt name; EvPerformRequest name action].
Proof.
  intros Hid Hs Hhas Hty Hm Ha Hl Hp Hreq.
  pose proof (dispatch_known_module w a pc name action module_ptr
                Hhas Hty Hm Ha Hl) as Hd.
  rewrite Hp in Hd.
  pose proof (callback_responses w a pc id sender Hid Hs) as Hresp.
  rewrite Hd in Hresp. cbn [snd] in Hresp. rewrite Hreq in Hresp.
  split; [exact Hresp|].
  by rewrite (callback_touch_events w a pc id sender Hid Hs), Hd.
Qed.

(** X16: a message without data section is answered with the error "no
    data", also when its data type is not JSON; a message with data that is
    not JSON is answered with "data is not in JSON format". *)
Theorem validation_error_messages a pc id sender :
  get_string w (envelope pc) "id" = Ok id →
  get_string w (envelope pc) "sender" = Ok sender →
  has_data pc = false ∨ data_type pc ≠ Json →
  responses (cncRequestCallback w a pc).1 =
    [([sender],
      error_payload
        (if has_data pc then "data is not in JSON format" else "no data"),
      [])].
Proof.
  intros Hid Hs Hbad.
  pose proof (callback_responses w a pc id sender Hid Hs) as Hresp.
  destruct (has_data pc) eqn:Hhas.
  - destruct Hbad as [?|Hty]; [done|].
    rewrite (dispatch_not_json w a pc Hhas Hty) in Hresp. exact Hresp.
  - rewrite (dispatch_no_data w a pc Hhas) in Hresp. exact Hresp.
Qed.

End DispatchSends.

(** ** The further theorems at the concrete installations *)

(** A refused connection. *)
Lemma start_connect_failure_witness :
  start Demo.bare (Demo.internal_agent Demo.bare Strict.refused) =
    ([ EvRegisterMessageCallback (getCncRequestSchema Demo.bare); EvConnect;
       EvLog LOG_ERROR "Failed to connect: %1%"
         [arg_str "connection refused"] ],
     Raise (Exn fatal_error "failed to connect")).
Proof.
  apply (start_connect_failure Demo.bare
           (Demo.internal_agent Demo.bare Strict.refused)
           (Exn connection_fatal_error "connection refused")); reflexivity.
Defined.



(** The file README of the mixed directory is no module. *)
Lemma load_failure_is_logged_by_class_witness :
  load_entry Demo.mixed_world (Demo.file "README") ∅ =
    ([ EvNewExternalModule "/opt/agent/modules/README";
       EvLog LOG_ERROR "Failed to load %1%; %2%"
         [ arg_str "/opt/agent/modules/README";
           arg_str "metadata is not valid JSON" ] ],
     Ok ∅).
Proof.
  apply (load_failure_is_logged_by_class Demo.mixed_world
           (Demo.file "README") ∅
           (Exn module_error "metadata is not valid JSON")); reflexivity.
Defined.

(** The mixed directory: three files, two modules, one error line. *)
Lemma every_file_is_loaded_or_logged_witness :
  (List.length
     (List.filter is_error_log
        (loadExternalModulesFrom Demo.mixed_world Demo.modules_dir ∅).1) +
   2 = 3)%nat.
Proof.
  apply (every_file_is_loaded_or_logged Demo.mixed_world Demo.modules_dir ∅);
    [reflexivity|].
  repeat constructor; intros H; discriminate H.
Defined.

(** The scan of the mixed directory leaves the internal echo module. *)
Lemma scan_preserves_other_entries_witness :
  ∃ modules',
    (loadExternalModulesFrom Demo.mixed_world Demo.modules_dir
       (loadInternalModules Demo.mixed_world ∅)).2 = Ok modules' ∧
    modules' !! "echo" = Some Demo.echo_module.
Proof.
  destruct (scan_preserves_other_entries Demo.mixed_world Demo.modules_dir
              (loadInternalModules Demo.mixed_world ∅) "echo")
    as (modules' & Hres & Hlook).
  - intros H; discriminate H.
  - intros _. split; [|reflexivity].
    repeat constructor; intros H; discriminate H.
  - intros _ e_m Hin. vm_compute in Hin.
    apply elem_of_cons in Hin as [->|Hin]; [discriminate|].
    apply elem_of_cons in Hin as [->|Hin]; [discriminate|].
    by apply elem_of_nil in Hin.
  - exists modules'. split; [exact Hres|]. rewrite Hlook. reflexivity.
Defined.

(** The scan stops at the entry whose status cannot be read: the module
    before it has been constructed, the one after it has not. *)
Lemma unreadable_status_aborts_scan_witness :
  (loadExternalModulesFrom Strict.stale_world Demo.modules_dir ∅).2 =
    Raise (Exn std_exception "cannot read /opt/agent/modules/mnt") ∧
  constructions
    (loadExternalModulesFrom Strict.stale_world Demo.modules_dir ∅).1 =
    ["/opt/agent/modules/reverse_a"].
Proof.
  apply (unreadable_status_aborts_scan Strict.stale_world Demo.modules_dir ∅
           [Demo.file "reverse_a"] (Strict.stale "mnt")
           [Demo.file "reverse_b"]); [reflexivity|reflexivity| |reflexivity].
  repeat constructor; intros H; discriminate H.
Defined.

(** An external module stored under "ping" is replaced by the internal
    one. *)
Lemma internal_modules_override_witness :
  loadInternalModules Demo.bare {["ping" := Demo.impostor]} !! "ping" =
    Some Demo.ping_module.
Proof.
  apply (proj1 (internal_modules_override Demo.bare
                  {["ping" := Demo.impostor]}) "ping" Demo.ping_module).
  apply elem_of_cons. right. apply elem_of_cons. right.
  apply elem_of_cons. left. reflexivity.
Defined.

(** A message whose envelope names no sender. *)
Lemma unreadable_envelope_leaves_callback_witness :
  cncRequestCallback Strict.world Strict.agent Strict.anonymous_request =
    ([], Raise (Strict.missing_key "sender")).
Proof.
  apply (unreadable_envelope_leaves_callback Strict.world Strict.agent
           Strict.anonymous_request (Strict.missing_key "sender")).
  right. exists "44". split; reflexivity.
Defined.

(** The [send] that answers the echo request. *)
Lemma every_send_answers_the_sender_witness :
  ["cth://client"] = ["cth://client"] ∧
  CTHUN_RESPONSE_SCHEMA_NAME Demo.bare =
    CTHUN_RESPONSE_SCHEMA_NAME Demo.bare ∧
  10 = 10.
Proof.
  apply (every_send_answers_the_sender Demo.bare Demo.bare_agent
           Demo.echo_request "42" "cth://client"
           ["cth://client"] (CTHUN_RESPONSE_SCHEMA_NAME Demo.bare) 10
           [("msg", JString "hi")] (wrap_debug Demo.echo_request)).
  - reflexivity.
  - reflexivity.
  - vm_compute. do 5 apply list_elem_of_further. apply list_elem_of_here.
Defined.

Lemma at_most_two_sends_witness :
  (List.length
     (responses (cncRequestCallback Demo.offline Demo.offline_agent
                   Demo.echo_request).1) ≤ 1)%nat.
Proof.
  apply (at_most_two_sends Demo.offline Demo.offline_agent Demo.echo_request).
  intros targets schema timeout d dbg e. cbn. intros [= <-]. reflexivity.
Defined.

(** The echo request. *)
Lemma successful_request_trace_witness :
  cncRequestCallback Demo.bare Demo.bare_agent Demo.echo_request =
    ((preamble "42" "cth://client" Demo.echo_request ++
      [ EvFind "echo"; EvAt "echo"; EvPerformRequest "echo" "echo";
        EvSend ["cth://client"] (CTHUN_RESPONSE_SCHEMA_NAME Demo.bare) 10
          [("msg", JString "hi")]
          [[("debug_data", JString "broker: received")];
           [("debug_data", JString "broker: forwarded")]] ])%list,
     Ok tt).
Proof.
  apply (successful_request_trace Demo.bare Demo.bare_agent
           Demo.echo_request "42" "cth://client" "echo" "echo"
           Demo.echo_module [("msg", JString "hi")]); reflexivity.
Defined.

(** A request for an action that echo does not have. *)
Lemma handler_request_error_is_answered_witness :
  responses (cncRequestCallback Demo.bare Demo.bare_agent
               Strict.bad_action_request).1 =
    [(["cth://client"],
      [("error", JString "unknown action 'reverse' for module echo")], [])] ∧
  List.filter (λ ev, is_lookup ev || is_perform ev)
    (cncRequestCallback Demo.bare Demo.bare_agent
       Strict.bad_action_request).1 =
    [EvFind "echo"; EvAt "echo"; EvPerformRequest "echo" "reverse"].
Proof.
  apply (handler_request_error_is_answered Demo.bare Demo.bare_agent
           Strict.bad_action_request "42" "cth://client" "echo" "reverse"
           Demo.echo_module (Demo.unknown_action "echo" "reverse"));
    reflexivity.
Defined.

(** Binary data. *)
Lemma validation_error_messages_witness :
  responses (cncRequestCallback Demo.bare Demo.bare_agent
               Strict.binary_request).1 =
    [(["cth://client"],
      [("error", JString "data is not in JSON format")], [])].
Proof.
  apply (validation_error_messages Demo.bare Demo.bare_agent
           Strict.binary_request "45" "cth://client").
  - reflexivity.
  - reflexivity.
  - right. discriminate.
Defined.
